(** * Flow-Saver-AI-Two: the resilient session layer

    A shallow embedding of the two core components of the dashboard:

    - the Aether request client (class [AetherClient]): session identity kept
      in [localStorage], the retrying [request] engine, and the chat
      operations built on it;
    - the interactive process session (class [ClaudeTerminal]): the
      pseudo-terminal wrapper and the composition of the [claude] command
      line.

    Asynchronous code is modelled twice where the claims need it: as a total
    function over a transport oracle (one logical call run to completion) and
    as a step function over events (several calls interleaved on the single
    JavaScript thread). *)

From Stdlib Require Import ZArith String Ascii List Lia Bool.
From stdpp Require Import base option list strings gmap pretty.

Local Open Scope string_scope.
Local Open Scope Z_scope.

(** ** JavaScript values, errors and completions *)

Module Js.

(** The values that cross the boundaries of the modelled code: decoded
    JSON bodies, plus [undefined].  Numbers are integers here: only their
    truthiness is ever observed. *)
#[warnings="-register-all"]
Inductive value : Type :=
| VUndefined
| VNull
| VBool (b : bool)
| VNum (n : Z)
| VStr (s : string)
| VArr (items : list value)
| VObj (fields : list (string * value)).

(** [ToBoolean]. *)
Definition truthy (v : value) : bool :=
  match v with
  | VUndefined | VNull => false
  | VBool b => b
  | VNum n => negb (n =? 0)
  | VStr EmptyString => false
  | VStr (String _ _) => true
  | VArr _ | VObj _ => true
  end.

(** [a || b]. *)
Definition or_else (a b : value) : value := if truthy a then a else b.

(** An [Error] object, as far as the code looks at it. Error objects are
    plain records here; a thrown [DOMException] is one with
    [name = "AbortError"]. *)
Record error : Type := MkError { name : string; message : string }.

(** [new Error(msg)]. *)
Definition new_Error (msg : string) : error :=
  {| name := "Error"; message := msg |}.

Definition new_TypeError (msg : string) : error :=
  {| name := "TypeError"; message := msg |}.

(** Anything can be thrown in JavaScript: an [Error] object or a bare
    value. *)
Inductive thrown : Type :=
| ThrowError (e : error)
| ThrowValue (v : value).

(** How a call ends. For an [async] function, [Return] is a promise that
    resolves and [Throw] one that rejects. *)
Inductive completion (A : Type) : Type :=
| Return (a : A)
| Throw (t : thrown).
Arguments Return {A} a.
Arguments Throw {A} t.

(** Sequencing: the first abrupt completion wins. *)
#[global] Instance completion_ret : MRet completion := fun A a => Return a.
#[global] Instance completion_bind : MBind completion :=
  fun A B f m => match m with Return a => f a | Throw t => Throw t end.

Fixpoint own_property (k : string) (fields : list (string * value)) : value :=
  match fields with
  | [] => VUndefined
  | (k', v) :: rest => if String.eqb k k' then v else own_property k rest
  end.

(** [v.k] for the two keys the client reads ([response], [message]):
    reading a property of [null] or [undefined] throws a [TypeError];
    primitives and arrays have no such property. *)
Definition get (v : value) (k : string) : completion value :=
  match v with
  | VUndefined | VNull =>
      Throw (ThrowError (new_TypeError ("Cannot read properties of null or undefined (reading '" +:+ k +:+ "')")))
  | VObj fields => Return (own_property k fields)
  | VBool _ | VNum _ | VStr _ | VArr _ => Return VUndefined
  end.

(** [error.message] in a [catch (error)] block. *)
Definition thrown_message (t : thrown) : completion value :=
  match t with
  | ThrowError e => Return (VStr (message e))
  | ThrowValue v => get v "message"
  end.

End Js.

(** ** The Aether client (src/unnamed/part_000) *)

Module Aether.
Import Js.

Definition AETHER_BASE_URL : string := "http://localhost:8000".
Definition REQUEST_TIMEOUT : Z := 30000.
Definition CHAT_TIMEOUT : Z := 90000.
Definition SESSION_KEY : string := "aether_session_id".

(** *** Session identity *)

(** What the page reads from its environment when it mints a token:
    [Date.now()] and [Math.random().toString(36)]. *)
Record entropy : Type := MkEntropy { date_now : Z; random_base36 : string }.

(** [s.substring(n)]. *)
Definition substring_from (n : nat) (s : string) : string :=
  String.substring n (String.length s - n) s.

(** [`session_${Date.now()}_${Math.random().toString(36).substring(7)}`] *)
Definition fresh_session_id (en : entropy) : string :=
  "session_" +:+ pretty (date_now en) +:+ "_" +:+ substring_from 7 (random_base36 en).

(** [!sessionId] on the result of [localStorage.getItem]. *)
Definition falsy_item (item : option string) : bool :=
  match item with
  | None => true
  | Some EmptyString => true
  | Some (String _ _) => false
  end.

Record AetherClient : Type := MkClient {
  baseUrl : string;
  retryCount : nat;
  retryDelay : Z;
  sessionId : string;
  isRequestInProgress : bool
}.

Definition getOrCreateSessionId (en : entropy) (localStorage : gmap string string)
  : string * gmap string string :=
  let item := localStorage !! SESSION_KEY in
  if falsy_item item then
    let sessionId := fresh_session_id en in
    (sessionId, <[SESSION_KEY := sessionId]> localStorage)
  else
    (default EmptyString item, localStorage).

Definition constructor (en : entropy) (localStorage : gmap string string)
  : AetherClient * gmap string string :=
  let '(sid, ls) := getOrCreateSessionId en localStorage in
  ({| baseUrl := AETHER_BASE_URL; retryCount := 3; retryDelay := 1000;
      sessionId := sid; isRequestInProgress := false |}, ls).

Definition set_sessionId (c : AetherClient) (sid : string) : AetherClient :=
  {| baseUrl := baseUrl c; retryCount := retryCount c; retryDelay := retryDelay c;
     sessionId := sid; isRequestInProgress := isRequestInProgress c |}.

Definition set_inProgress (c : AetherClient) (b : bool) : AetherClient :=
  {| baseUrl := baseUrl c; retryCount := retryCount c; retryDelay := retryDelay c;
     sessionId := sessionId c; isRequestInProgress := b |}.

Definition clearSession (en : entropy) (c : AetherClient) (localStorage : gmap string string)
  : AetherClient * gmap string string :=
  let removed := delete SESSION_KEY localStorage in
  let '(sid, ls) := getOrCreateSessionId en removed in
  (set_sessionId c sid, ls).

(** *** The request engine *)

(** The [options] handed to [fetch]; the body is kept as the value given
    to [JSON.stringify]. *)
Record request_init : Type := MkInit { method : option string; body : option value }.

(** [options = {}] *)
Definition no_options : request_init := {| method := None; body := None |}.
Definition POST (payload : value) : request_init :=
  {| method := Some "POST"; body := Some payload |}.

(** How one transport attempt ends. [Rejects e]: [fetch] rejected, with a
    network failure or, when the attempt's timer aborted it, with
    [name e = "AbortError"] (the caller's own [signal] is overridden by the
    controller's, so an abort is always the timeout). [Responds]: a
    response arrived, with its [ok] flag, status line and the outcome of
    [response.json()]. *)
Inductive fetch_outcome : Type :=
| Rejects (e : error)
| Responds (ok : bool) (status : Z) (statusText : string) (json : error + value).

(** What [request] does to the outside world, in order. *)
Inductive effect : Type :=
| Fetch (url : string) (init : request_init) (attempt : nat) (timeout : Z)
| Delay (ms : Z).

(** The [try] block of one iteration, after [fetch] settled. *)
Definition try_block (o : fetch_outcome) : error + value :=
  match o with
  | Rejects e => inl e
  | Responds ok status statusText json =>
      if negb ok then
        inl (new_Error ("HTTP " +:+ pretty status +:+ ": " +:+ statusText))
      else json
  end.

Inductive attempt_result : Type :=
| Done (data : value)
| Fail (e : error)
| Retry (ms : Z).

(** What the engine says when strict code assigns to the [message] of a
    [DOMException], which has a getter only. *)
Definition READONLY_MESSAGE : string :=
  "Cannot set property message of [object DOMException] which has only a getter".

(** The [catch] block. An error named [AbortError] is the [DOMException]
    of an aborted [fetch]; the body of a class is strict code, so the
    assignment [error.message = ...] of the first branch throws a
    [TypeError], and that leaves the [catch] block and [request] at once,
    before the test for the last attempt and before the wait. The
    "taking too long" branch of that test is therefore never reached. *)
Definition catch_block (c : AetherClient) (attempt : nat) (e : error) : attempt_result :=
  if String.eqb (name e) "AbortError" then
    Fail (new_TypeError READONLY_MESSAGE)
  else if Nat.eqb attempt (retryCount c) then
    Fail (new_Error ("Connection failed: " +:+ message e))
  else
    Retry (retryDelay c * Z.of_nat attempt).

Definition run_attempt (c : AetherClient) (attempt : nat) (o : fetch_outcome) : attempt_result :=
  match try_block o with
  | inr data => Done data
  | inl e => catch_block c attempt e
  end.

(** [customTimeout || REQUEST_TIMEOUT] *)
Definition effective_timeout (customTimeout : option Z) : Z :=
  match customTimeout with
  | None => REQUEST_TIMEOUT
  | Some t => if t =? 0 then REQUEST_TIMEOUT else t
  end.

(** [for (let attempt = ...; attempt <= this.retryCount; attempt++)], with
    [iters] the number of iterations the loop condition still allows.
    [net k] is how the transport answers attempt [k]. *)
Fixpoint request_loop (c : AetherClient) (url : string) (init : request_init) (timeout : Z)
    (net : nat -> fetch_outcome) (iters : nat) (attempt : nat)
  : list effect * completion value :=
  match iters with
  | O => ([], Return VUndefined)
  | S iters' =>
      let '(rest, result) :=
        match run_attempt c attempt (net attempt) with
        | Done data => ([], Return data)
        | Fail e => ([], Throw (ThrowError e))
        | Retry ms =>
            let '(rest, result) := request_loop c url init timeout net iters' (S attempt) in
            (Delay ms :: rest, result)
        end in
      (Fetch url init attempt timeout :: rest, result)
  end.

Definition request (c : AetherClient) (endpoint : string) (init : request_init)
    (customTimeout : option Z) (net : nat -> fetch_outcome)
  : list effect * completion value :=
  request_loop c (baseUrl c +:+ endpoint) init (effective_timeout customTimeout)
    net (retryCount c) 1.

(** *** Chat *)

(** The object a chat call resolves to; an absent field is [None]. *)
Record chat_result : Type := MkChatResult {
  success : bool;
  response : option value;
  error : option value;
  result_sessionId : string;
  timestamp : string
}.

(** The caller's [onStreamUpdate]: [None] when it returns, [Some t] when it
    throws [t]. *)
Definition stream_callback : Type := value -> option thrown.

Definition SINGLE_FLIGHT_MESSAGE : string :=
  "Another request is already in progress. Please wait.".

Definition chat_payload (c : AetherClient) (message : string) (now : string) : value :=
  VObj [("message", VStr message); ("session_id", VStr (sessionId c)); ("timestamp", VStr now)].

(** The [try] block of [sendChatMessage] from the point where
    [await this.request(...)] settled with [r]. *)
Definition chat_try (c : AetherClient) (now : string) (onStreamUpdate : option stream_callback)
    (r : completion value) : completion chat_result :=
  response ← r;
  _ ← match onStreamUpdate with
      | None => Return tt
      | Some callback =>
          text ← get response "response";
          if truthy text then
            match callback text with
            | None => Return tt
            | Some t => Throw t
            end
          else Return tt
      end;
  text ← get response "response";
  reply ← (if truthy text then Return text
           else msg ← get response "message"; Return (or_else msg (VStr "No response")));
  Return {| success := true; response := Some reply; error := None;
            result_sessionId := sessionId c; timestamp := now |}.

(** The [catch (error)] block. *)
Definition chat_catch (c : AetherClient) (now : string) (t : thrown) : completion chat_result :=
  msg ← thrown_message t;
  Return {| success := false; response := None; error := Some msg;
            result_sessionId := sessionId c; timestamp := now |}.

(** [try { ... } catch { ... } finally { this.isRequestInProgress = false }],
    once the request has settled. *)
Definition chat_settle (c : AetherClient) (now : string) (onStreamUpdate : option stream_callback)
    (r : completion value) : AetherClient * completion chat_result :=
  let outcome :=
    match chat_try c now onStreamUpdate r with
    | Return res => Return res
    | Throw t => chat_catch c now t
    end in
  (set_inProgress c false, outcome).

(** One chat call run to completion with nothing interleaved. [now_sent]
    and [now_settled] are the two readings of [new Date().toISOString()]. *)
Definition sendChatMessage (c : AetherClient) (message : string)
    (onStreamUpdate : option stream_callback) (now_sent now_settled : string)
    (net : nat -> fetch_outcome)
  : AetherClient * list effect * completion chat_result :=
  if isRequestInProgress c then
    (c, [], Throw (ThrowError (new_Error SINGLE_FLIGHT_MESSAGE)))
  else
    let c1 := set_inProgress c true in
    let '(wire, r) :=
      request c1 "/api/chat" (POST (chat_payload c1 message now_sent)) (Some CHAT_TIMEOUT) net in
    let '(c2, outcome) := chat_settle c1 now_settled onStreamUpdate r in
    (c2, wire, outcome).

Definition EMPTY_HISTORY : value := VObj [("messages", VArr [])].

Definition getChatHistory (c : AetherClient) (net : nat -> fetch_outcome)
  : list effect * completion value :=
  let '(wire, r) := request c ("/api/chat/history/" +:+ sessionId c) no_options None net in
  (wire, match r with
         | Return history => Return history
         | Throw _ => Return EMPTY_HISTORY
         end).

(** [getHealth], one of the operations that let the terminal error through. *)
Definition getHealth (c : AetherClient) (net : nat -> fetch_outcome)
  : list effect * completion value :=
  request c "/health" no_options None net.

(** *** Chat calls interleaved on the event loop

    A chat call is suspended at [await fetch(...)] and at
    [await this.delay(...)]; other calls may start in between. The page is
    the client, the calls that have not settled, the transport effects so
    far (tagged with the call that made them) and the settled promises. *)

Inductive phase : Type :=
| Fetching (attempt : nat)
| Sleeping (attempt : nat)
| Returning (r : completion value).

Record chat_call : Type := MkCall {
  call_id : nat;
  call_init : request_init;
  call_callback : option stream_callback;
  call_phase : phase
}.

Record page : Type := MkPage {
  client : AetherClient;
  inflight : list chat_call;
  wire : list (nat * effect);
  settled : list (nat * completion chat_result)
}.

Inductive event : Type :=
| Invoke (id : nat) (message : string) (onStreamUpdate : option stream_callback) (now : string)
| FetchSettled (id : nat) (o : fetch_outcome) (now : string)
| TimerFired (id : nat) (now : string)
| Resumed (id : nat) (now : string).

Definition chat_url (c : AetherClient) : string := baseUrl c +:+ "/api/chat".

Definition find_call (id : nat) (calls : list chat_call) : option chat_call :=
  List.find (fun k => Nat.eqb (call_id k) id) calls.

Definition drop_call (id : nat) (calls : list chat_call) : list chat_call :=
  List.filter (fun k => negb (Nat.eqb (call_id k) id)) calls.

Definition set_phase (k : chat_call) (ph : phase) : chat_call :=
  {| call_id := call_id k; call_init := call_init k;
     call_callback := call_callback k; call_phase := ph |}.

(** The request of call [k] settled with [r]: the rest of [sendChatMessage]
    runs and its promise settles. *)
Definition settle (p : page) (k : chat_call) (now : string) (r : completion value) : page :=
  let '(c', outcome) := chat_settle (client p) now (call_callback k) r in
  {| client := c';
     inflight := drop_call (call_id k) (inflight p);
     wire := wire p;
     settled := settled p ++ [(call_id k, outcome)] |}.

(** The loop of [request] is entered (or re-entered) at [attempt]. When
    the loop condition fails, [request] returns [undefined] without having
    awaited anything, and [sendChatMessage] goes on from its [await] in a
    microtask, the flag still set until then. *)
Definition enter_attempt (p : page) (k : chat_call) (attempt : nat) : page :=
  if Nat.leb attempt (retryCount (client p)) then
    {| client := client p;
       inflight := set_phase k (Fetching attempt) :: drop_call (call_id k) (inflight p);
       wire := wire p ++ [(call_id k, Fetch (chat_url (client p)) (call_init k) attempt CHAT_TIMEOUT)];
       settled := settled p |}
  else
    {| client := client p;
       inflight := set_phase k (Returning (Return VUndefined)) :: drop_call (call_id k) (inflight p);
       wire := wire p;
       settled := settled p |}.

(** One turn of the event loop. An event for a call that is not waiting
    for it changes nothing. After a [fetch] has settled, the microtasks
    that end the call run before any other event; [Resumed] is the
    microtask of a call whose request returned without awaiting. *)
Definition step (p : page) (ev : event) : page :=
  match ev with
  | Invoke id message onStreamUpdate now =>
      if isRequestInProgress (client p) then
        {| client := client p; inflight := inflight p; wire := wire p;
           settled := settled p ++ [(id, Throw (ThrowError (new_Error SINGLE_FLIGHT_MESSAGE)))] |}
      else
        let c1 := set_inProgress (client p) true in
        let k := {| call_id := id; call_init := POST (chat_payload c1 message now);
                    call_callback := onStreamUpdate; call_phase := Fetching 1 |} in
        enter_attempt {| client := c1; inflight := inflight p; wire := wire p;
                         settled := settled p |} k 1
  | FetchSettled id o now =>
      match find_call id (inflight p) with
      | Some k =>
          match call_phase k with
          | Fetching attempt =>
              match run_attempt (client p) attempt o with
              | Done data => settle p k now (Return data)
              | Fail e => settle p k now (Throw (ThrowError e))
              | Retry ms =>
                  {| client := client p;
                     inflight := set_phase k (Sleeping attempt) :: drop_call id (inflight p);
                     wire := wire p ++ [(id, Delay ms)];
                     settled := settled p |}
              end
          | Sleeping _ | Returning _ => p
          end
      | None => p
      end
  | TimerFired id now =>
      match find_call id (inflight p) with
      | Some k =>
          match call_phase k with
          | Sleeping attempt => enter_attempt p k (S attempt)
          | Fetching _ | Returning _ => p
          end
      | None => p
      end
  | Resumed id now =>
      match find_call id (inflight p) with
      | Some k =>
          match call_phase k with
          | Returning r => settle p k now r
          | Fetching _ | Sleeping _ => p
          end
      | None => p
      end
  end.

Definition run (p : page) (evs : list event) : page := fold_left step evs p.

(** The page right after [new AetherClient()]. *)
Definition fresh_page (c : AetherClient) : page :=
  {| client := set_inProgress c false; inflight := []; wire := []; settled := [] |}.

End Aether.

(** ** The interactive process session (src/unnamed/part_001) *)

Module Terminal.

(** The task handed over by the renderer. A field that is not set is
    [None]; a template literal prints it as [undefined]. *)
Record Task : Type := MkTask { title : option string; priority : option string }.

(** Truthiness of an optional string: absent and empty are both falsy. *)
Definition present (s : option string) : bool :=
  match s with
  | None => false
  | Some EmptyString => false
  | Some (String _ _) => true
  end.

(** [`${s}`] *)
Definition interpolate (s : option string) : string := default "undefined" s.

Definition dquote : string := String (ascii_of_nat 34) EmptyString.
Definition newline : string := String (ascii_of_nat 10) EmptyString.

(** The command line [launchClaudeCode] builds before it writes it. *)
Definition claudeCommand (currentTask : option Task) (contextData : option string) : string :=
  let claudeCommand := "claude" in
  let claudeCommand :=
    match currentTask with
    | Some task =>
        let claudeCommand :=
          claudeCommand +:+ " --context " +:+ dquote +:+ "Current Task: "
            +:+ interpolate (title task) +:+ dquote in
        if present (priority task) then
          claudeCommand +:+ " --context " +:+ dquote +:+ "Priority: "
            +:+ interpolate (priority task) +:+ dquote
        else claudeCommand
    | None => claudeCommand
    end in
  if present contextData then
    claudeCommand +:+ " --context " +:+ dquote +:+ interpolate contextData +:+ dquote
  else claudeCommand.

Definition BANNER : string :=
  "echo " +:+ dquote +:+ "🚀 Starting Claude Code in FlowSaver context..." +:+ dquote +:+ newline.

(** The host the main process runs on: [os.platform()] and
    [process.env.SHELL]. *)
Record host : Type := MkHost { platform : string; env_SHELL : option string }.

Definition select_shell (h : host) : string :=
  if String.eqb (platform h) "win32" then "powershell.exe"
  else if present (env_SHELL h) then interpolate (env_SHELL h) else "/bin/bash".

Inductive emitted : Type :=
| EvOutput (data : string)
| EvExit
| EvReady
| EvError (reason : string).

(** What the session does to the outside world. A pseudo-terminal is
    named by a number. *)
Inductive effect : Type :=
| PtySpawn (shell : string) (cwd : string)
| PtyWrite (pty : nat) (data : string)
| PtyResize (pty : nat) (cols rows : Z)
| PtyKill (pty : nat)
| Emit (e : emitted).

(** [onceReady] holds the one-shot [ready] listeners registered by
    [startClaude], each with the arguments it closed over. *)
Record ClaudeTerminal : Type := MkTerminal {
  projectPath : string;
  ptyProcess : option nat;
  isRunning : bool;
  onceReady : list (option Task * option string)
}.

(** [projectPath || process.cwd()]: a path left out or empty gives way to
    the working directory [cwd] of the main process. *)
Definition constructor (projectPath : option string) (cwd : string) : ClaudeTerminal :=
  {| projectPath := if present projectPath then interpolate projectPath else cwd;
     ptyProcess := None; isRunning := false; onceReady := [] |}.

Definition write (t : ClaudeTerminal) (data : string) : ClaudeTerminal * list effect :=
  match ptyProcess t with
  | Some pty => if isRunning t then (t, [PtyWrite pty data]) else (t, [])
  | None => (t, [])
  end.

Definition resize (t : ClaudeTerminal) (cols rows : Z) : ClaudeTerminal * list effect :=
  match ptyProcess t with
  | Some pty => if isRunning t then (t, [PtyResize pty cols rows]) else (t, [])
  | None => (t, [])
  end.

Definition launchClaudeCode (t : ClaudeTerminal) (currentTask : option Task)
    (contextData : option string) : ClaudeTerminal * list effect :=
  let '(t1, e1) := write t BANNER in
  let '(t2, e2) := write t1 (claudeCommand currentTask contextData +:+ newline) in
  (t2, (e1 ++ e2)%list).

(** [this.emit('ready')]: the one-shot listeners are unregistered and run in
    the order they were registered. *)
Fixpoint run_listeners (t : ClaudeTerminal) (ls : list (option Task * option string))
  : ClaudeTerminal * list effect :=
  match ls with
  | [] => (t, [])
  | (task, context) :: rest =>
      let '(t1, e1) := launchClaudeCode t task context in
      let '(t2, e2) := run_listeners t1 rest in
      (t2, (e1 ++ e2)%list)
  end.

Definition emit_ready (t : ClaudeTerminal) : ClaudeTerminal * list effect :=
  let listeners := onceReady t in
  let t0 := {| projectPath := projectPath t; ptyProcess := ptyProcess t;
               isRunning := isRunning t; onceReady := [] |} in
  let '(t1, e1) := run_listeners t0 listeners in
  (t1, Emit EvReady :: e1).

(** [spawned] is what [pty.spawn] does: hand back a new pseudo-terminal or
    throw. *)
Definition startSession (h : host) (spawned : string + nat) (t : ClaudeTerminal)
  : ClaudeTerminal * list effect :=
  if isRunning t then (t, [])
  else
    let shell := select_shell h in
    match spawned with
    | inr pty =>
        let t1 := {| projectPath := projectPath t; ptyProcess := Some pty;
                     isRunning := true; onceReady := onceReady t |} in
        let '(t2, e2) := emit_ready t1 in
        (t2, PtySpawn shell (projectPath t) :: e2)
    | inl reason =>
        (t, [PtySpawn shell (projectPath t); Emit (EvError reason)])
    end.

Definition startClaude (h : host) (spawned : string + nat) (t : ClaudeTerminal)
    (currentTask : option Task) (contextData : option string)
  : ClaudeTerminal * list effect :=
  if negb (isRunning t) then
    let '(t1, e1) := startSession h spawned t in
    ({| projectPath := projectPath t1; ptyProcess := ptyProcess t1; isRunning := isRunning t1;
        onceReady := onceReady t1 ++ [(currentTask, contextData)] |}, e1)
  else launchClaudeCode t currentTask contextData.

Definition kill (t : ClaudeTerminal) : ClaudeTerminal * list effect :=
  match ptyProcess t with
  | Some pty =>
      ({| projectPath := projectPath t; ptyProcess := ptyProcess t;
          isRunning := false; onceReady := onceReady t |}, [PtyKill pty])
  | None => (t, [])
  end.

(** The [onExit] handler of a spawned process; none is registered before
    the first spawn. *)
Definition onExit (t : ClaudeTerminal) : ClaudeTerminal * list effect :=
  match ptyProcess t with
  | Some _ =>
      ({| projectPath := projectPath t; ptyProcess := ptyProcess t;
          isRunning := false; onceReady := onceReady t |}, [Emit EvExit])
  | None => (t, [])
  end.

(** The [onData] handler. *)
Definition onData (t : ClaudeTerminal) (data : string) : ClaudeTerminal * list effect :=
  match ptyProcess t with
  | Some _ => (t, [Emit (EvOutput data)])
  | None => (t, [])
  end.

(** Everything that can happen to one instance. *)
Inductive operation : Type :=
| StartSession (h : host) (spawned : string + nat)
| Write (data : string)
| Resize (cols rows : Z)
| StartClaude (h : host) (spawned : string + nat) (currentTask : option Task)
    (contextData : option string)
| Kill
| ProcessExited
| ProcessOutput (data : string).

Definition perform (t : ClaudeTerminal) (op : operation) : ClaudeTerminal * list effect :=
  match op with
  | StartSession h spawned => startSession h spawned t
  | Write data => write t data
  | Resize cols rows => resize t cols rows
  | StartClaude h spawned task context => startClaude h spawned t task context
  | Kill => kill t
  | ProcessExited => onExit t
  | ProcessOutput data => onData t data
  end.

Fixpoint perform_all (t : ClaudeTerminal) (ops : list operation) : ClaudeTerminal * list effect :=
  match ops with
  | [] => (t, [])
  | op :: rest =>
      let '(t1, e1) := perform t op in
      let '(t2, e2) := perform_all t1 rest in
      (t2, (e1 ++ e2)%list)
  end.

(** The states an instance can be in: those some sequence of operations
    leads to from the constructor. *)
Definition reachable (t : ClaudeTerminal) : Prop :=
  exists path cwd ops, fst (perform_all (constructor path cwd) ops) = t.

End Terminal.

(** ** Observations the statements are written with *)

Module Observe.
Import Js Aether.

(** An attempt succeeds when its [try] block runs to [return data]. *)
Definition succeeds (o : fetch_outcome) : bool :=
  match try_block o with
  | inr _ => true
  | inl _ => false
  end.

Definition is_fetch (e : effect) : bool :=
  match e with
  | Fetch _ _ _ _ => true
  | Delay _ => false
  end.

(** Number of transport attempts in a trace. *)
Definition fetches (tr : list effect) : nat := length (List.filter is_fetch tr).

(** The waits of a trace, in order. *)
Definition delays (tr : list effect) : list Z :=
  omap (fun e => match e with Delay ms => Some ms | Fetch _ _ _ _ => None end) tr.

(** [count] attempts numbered from [from], each but the last followed by
    its backoff wait. *)
Fixpoint schedule (c : AetherClient) (url : string) (init : request_init) (timeout : Z)
    (from count : nat) : list effect :=
  match count with
  | O => []
  | S n =>
      Fetch url init from timeout ::
      match n with
      | O => []
      | S _ => Delay (retryDelay c * Z.of_nat from) :: schedule c url init timeout (S from) n
      end
  end.

(** The transport [net] with the answer to attempt [k] replaced. *)
Definition override (net : nat -> fetch_outcome) (k : nat) (o : fetch_outcome)
  : nat -> fetch_outcome :=
  fun j => if Nat.eqb j k then o else net j.

(** The error the [catch] block of [request] sees after a failed attempt. *)
Definition failure (o : fetch_outcome) : option Js.error :=
  match try_block o with
  | inl e => Some e
  | inr _ => None
  end.

(** The text of the branch for a last attempt that timed out, which the
    code never reaches. *)
Definition TOO_LONG : string := "The AI is taking too long to respond. Please try again.".

(** The attempt was aborted by its timer. *)
Definition aborted (o : fetch_outcome) : bool :=
  match try_block o with
  | inl e => String.eqb (name e) "AbortError"
  | inr _ => false
  end.

(** The attempt failed otherwise: network failure, non-success status, or
    a body that does not decode. *)
Definition fails_plainly (o : fetch_outcome) : bool :=
  negb (succeeds o) && negb (aborted o).

(** The error [request] throws when the last attempt fails plainly with
    [e]. *)
Definition connection_failed (e : Js.error) : Js.error :=
  new_Error ("Connection failed: " +:+ message e).

(** The error [request] throws when an attempt is aborted. *)
Definition abort_crash : Js.error := new_TypeError READONLY_MESSAGE.

(** Does the character occur in the string? *)
Fixpoint occurs (a : ascii) (s : string) : bool :=
  match s with
  | EmptyString => false
  | String b rest => if Ascii.eqb a b then true else occurs a rest
  end.

(** The caller's stream callback never throws [null] or [undefined]. *)
Definition throws_no_nullish (onStreamUpdate : option stream_callback) : Prop :=
  forall callback v, onStreamUpdate = Some callback ->
    callback v <> Some (ThrowValue VNull) /\ callback v <> Some (ThrowValue VUndefined).

(** The object a failed chat call resolves to. *)
Definition chat_failure (c : AetherClient) (now : string) (msg : string) : chat_result :=
  {| success := false; response := None; error := Some (VStr msg);
     result_sessionId := sessionId c; timestamp := now |}.

(** The events that carry call [id] from its first [fetch] to its end when
    the transport answers as [net] says: each attempt settles, and a timer
    fires after each one that is to be retried. *)
Fixpoint drive (c : AetherClient) (id : nat) (net : nat -> fetch_outcome) (now : string)
    (iters attempt : nat) : list event :=
  match iters with
  | O => []
  | S iters' =>
      FetchSettled id (net attempt) now ::
      match run_attempt c attempt (net attempt) with
      | Retry _ => TimerFired id now :: drive c id net now iters' (S attempt)
      | Done _ | Fail _ => []
      end
  end.

(** Every page the event loop can get to from a new client. *)
Definition reachable_page (p : page) : Prop :=
  exists c evs, p = run (fresh_page c) evs.

(** The flag is set exactly when one call is outstanding, and there is
    never more than one. *)
Definition single_flight (p : page) : Prop :=
  match inflight p with
  | [] => isRequestInProgress (client p) = false
  | [_] => isRequestInProgress (client p) = true
  | _ :: _ :: _ => False
  end.

End Observe.

Module TerminalObserve.
Import Terminal.

(** One context flag: [ --context "<text>"]. *)
Definition context_flag (text : string) : string :=
  " --context " +:+ dquote +:+ text +:+ dquote.

(** The composition rule in the words of the specification: the
    invocation name, then the flags of the task, then the flag of the
    free-form context. *)
Definition composition_rule (currentTask : option Task) (contextData : option string) : string :=
  "claude"
  +:+ match currentTask with
      | Some task =>
          context_flag ("Current Task: " +:+ interpolate (title task))
          +:+ (if present (priority task)
               then context_flag ("Priority: " +:+ interpolate (priority task))
               else EmptyString)
      | None => EmptyString
      end
  +:+ (if present contextData then context_flag (interpolate contextData) else EmptyString).

(** Operations that spawn a process successfully when the session is not
    running. *)
Definition respawns (op : operation) : bool :=
  match op with
  | StartSession _ (inr _) => true
  | StartClaude _ (inr _) _ _ => true
  | _ => false
  end.

(** A running session holds a process. *)
Definition running_has_process (t : ClaudeTerminal) : Prop :=
  isRunning t = true -> exists pty, ptyProcess t = Some pty.

Definition linux : host := {| platform := "linux"; env_SHELL := Some "/bin/zsh" |}.

Definition fix_bug : Task := {| title := Some "Fix bug"; priority := Some "high" |}.

End TerminalObserve.

(** ** Sample data *)

Module Sample.
Import Js Aether.

Definition client3 : AetherClient :=
  {| baseUrl := AETHER_BASE_URL; retryCount := 3; retryDelay := 1000;
     sessionId := "session_1_abc"; isRequestInProgress := false |}.

Definition busy_client : AetherClient := set_inProgress client3 true.

Definition ok_status : value := VObj [("status", VStr "ok")].

Definition refused : fetch_outcome := Rejects {| name := "TypeError"; message := "Failed to fetch" |}.
Definition timed_out : fetch_outcome :=
  Rejects {| name := "AbortError"; message := "The user aborted a request." |}.
Definition unavailable : fetch_outcome := Responds false 503 "Service Unavailable" (inr VNull).
Definition not_found : fetch_outcome := Responds false 404 "Not Found" (inr VNull).
Definition healthy : fetch_outcome := Responds true 200 "OK" (inr ok_status).

(** Two readings of the environment within one millisecond. Both random
    numbers print with fewer than six base-36 digits, so both suffixes are
    empty. *)
Definition reading_a : entropy := {| date_now := 1700000000000; random_base36 := "0.i" |}.
Definition reading_b : entropy := {| date_now := 1700000000000; random_base36 := "0.9" |}.
Definition reading_c : entropy := {| date_now := 1700000000001; random_base36 := "0.4fzyo82mvyr" |}.

(** A stream callback that throws [null]. *)
Definition throws_null : stream_callback := fun _ => Some (ThrowValue VNull).

Definition greeting : fetch_outcome :=
  Responds true 200 "OK" (inr (VObj [("response", VStr "Hello")])).

(** One plain failure, then timeouts. *)
Definition refused_then_timed_out : nat -> fetch_outcome :=
  fun k => if Nat.leb k 1 then refused else timed_out.

(** Two plain failures, then a timeout on the last attempt of three. *)
Definition timed_out_at_last : nat -> fetch_outcome :=
  fun k => if Nat.leb k 2 then refused else timed_out.

(** A timeout, after which the service would answer. *)
Definition timed_out_then_healthy : nat -> fetch_outcome :=
  fun k => if Nat.leb k 1 then timed_out else healthy.

Definition always (o : fetch_outcome) : nat -> fetch_outcome := fun _ => o.

(** Fails twice, then answers. *)
Definition third_time_lucky : nat -> fetch_outcome :=
  fun k => if Nat.leb k 2 then refused else healthy.

End Sample.

(** ** The rest of the Aether client's catalogue (src/unnamed/part_000) *)

Module AetherOps.
Import Js Aether.

Definition getEdicts (c : AetherClient) (net : nat -> fetch_outcome)
  : list effect * completion value :=
  request c "/edicts" no_options None net.

Definition getStats (c : AetherClient) (net : nat -> fetch_outcome)
  : list effect * completion value :=
  request c "/stats" no_options None net.

(** [context = {}]: an argument left out is the empty object. *)
Definition executeEdict (c : AetherClient) (edictName : string) (context : option value)
    (net : nat -> fetch_outcome) : list effect * completion value :=
  request c ("/webhook/" +:+ edictName) (POST (default (VObj []) context)) None net.

Definition getCronJobs (c : AetherClient) (net : nat -> fetch_outcome)
  : list effect * completion value :=
  request c "/cron/jobs" no_options None net.

Definition getConsciousness (c : AetherClient) (net : nat -> fetch_outcome)
  : list effect * completion value :=
  request c "/consciousness/status" no_options None net.

Definition queryConsciousness (c : AetherClient) (query : value) (context : option value)
    (net : nat -> fetch_outcome) : list effect * completion value :=
  request c "/consciousness/query"
    (POST (VObj [("query", query); ("context", default (VObj []) context)])) None net.

(** [limit = 50]. The argument is taken as the text the template literal
    prints for it, so that no way of printing a number is assumed. *)
Definition getLogs (c : AetherClient) (limit : option string) (net : nat -> fetch_outcome)
  : list effect * completion value :=
  request c ("/logs?limit=" +:+ default "50" limit) no_options None net.

Definition getWekanStatus (c : AetherClient) (net : nat -> fetch_outcome)
  : list effect * completion value :=
  request c "/wekan/status" no_options None net.

Definition getFoundryCards (c : AetherClient) (net : nat -> fetch_outcome)
  : list effect * completion value :=
  request c "/foundry/cards" no_options None net.

Definition getFoundryStats (c : AetherClient) (net : nat -> fetch_outcome)
  : list effect * completion value :=
  request c "/foundry/stats" no_options None net.

Definition getFoundryReports (c : AetherClient) (net : nat -> fetch_outcome)
  : list effect * completion value :=
  request c "/foundry/reports" no_options None net.

(** The object [testConnection] resolves to; an absent field is [None]. *)
Record connection_report : Type := MkReport {
  connected : bool;
  status : option value;
  version : option value;
  report_error : option value;
  report_sessionId : string
}.

(** The [try] block of [testConnection] once [getHealth] settled. Like
    [response] and [message], [status] and [aether_version] are properties
    of objects only. *)
Definition connection_try (c : AetherClient) (r : completion value)
  : completion connection_report :=
  health ← r;
  st ← get health "status";
  ver ← get health "aether_version";
  Return {| connected := true; status := Some st; version := Some ver;
            report_error := None; report_sessionId := sessionId c |}.

Definition connection_catch (c : AetherClient) (t : thrown) : completion connection_report :=
  msg ← thrown_message t;
  Return {| connected := false; status := None; version := None;
            report_error := Some msg; report_sessionId := sessionId c |}.

Definition testConnection (c : AetherClient) (net : nat -> fetch_outcome)
  : list effect * completion connection_report :=
  let '(wire, r) := getHealth c net in
  (wire, match connection_try c r with
         | Return report => Return report
         | Throw t => connection_catch c t
         end).

Definition isRequestPending (c : AetherClient) : bool := isRequestInProgress c.

(** The operations that hand the outcome of [request] to their caller as
    it is. *)
Inductive plain_operation : Type :=
| GetHealth
| GetEdicts
| GetStats
| ExecuteEdict (edictName : string) (context : option value)
| GetCronJobs
| GetConsciousness
| QueryConsciousness (query : value) (context : option value)
| GetLogs (limit : option string)
| GetWekanStatus
| GetFoundryCards
| GetFoundryStats
| GetFoundryReports.

Definition call (op : plain_operation) (c : AetherClient) (net : nat -> fetch_outcome)
  : list effect * completion value :=
  match op with
  | GetHealth => getHealth c net
  | GetEdicts => getEdicts c net
  | GetStats => getStats c net
  | ExecuteEdict edictName context => executeEdict c edictName context net
  | GetCronJobs => getCronJobs c net
  | GetConsciousness => getConsciousness c net
  | QueryConsciousness query context => queryConsciousness c query context net
  | GetLogs limit => getLogs c limit net
  | GetWekanStatus => getWekanStatus c net
  | GetFoundryCards => getFoundryCards c net
  | GetFoundryStats => getFoundryStats c net
  | GetFoundryReports => getFoundryReports c net
  end.

End AetherOps.

(** ** The main process: the terminal's bridge to the renderer
    (src/src/main/main.js) *)

Module Main.
Import Terminal.

(** What the renderer asks over IPC. *)
Inductive ipc_request : Type :=
| TerminalStart
| TerminalInput (data : string)
| TerminalResize (cols rows : Z)
| TerminalStartClaude (currentTask : option Task) (contextData : option string).

(** A message sent with [mainWindow.webContents.send]. *)
Record renderer_message : Type := MkMessage { channel : string; payload : option string }.

(** The listeners [setupTerminalIPC] puts on the terminal; nothing listens
    to [ready]. *)
Definition forward (e : emitted) : option renderer_message :=
  match e with
  | EvOutput data => Some {| channel := "terminal-output"; payload := Some data |}
  | EvExit => Some {| channel := "terminal-exit"; payload := None |}
  | EvError reason => Some {| channel := "terminal-error"; payload := Some reason |}
  | EvReady => None
  end.

(** The messages the renderer gets out of what the terminal does. *)
Definition to_renderer (effects : list effect) : list renderer_message :=
  omap (fun e => match e with Emit ev => forward ev | _ => None end) effects.

(** The four [ipcMain.handle] handlers of the terminal: the operation on
    the terminal, and the reply, whose [success] field is the boolean. *)
Definition handle (h : host) (spawned : string + nat) (t : ClaudeTerminal) (req : ipc_request)
  : ClaudeTerminal * list effect * bool :=
  match req with
  | TerminalStart => (startSession h spawned t, true)
  | TerminalInput data => (write t data, true)
  | TerminalResize cols rows => (resize t cols rows, true)
  | TerminalStartClaude currentTask contextData =>
      (startClaude h spawned t currentTask contextData, true)
  end.

End Main.

(** ** The launch script (src/launch.sh)

    The script as a function of what it finds on the machine. Messages
    printed with [echo] are left out; the asynchronous [trap] is not
    modelled, so that [cleanup] is only reached where the script calls
    it. *)

Module Launch.

Definition AETHER_PATH : string := "/Users/macbook/Downloads/pizza-empire-toolkit".
Definition MOTION_PATH : string := "/Users/macbook/Desktop/motion-clone".
Definition AETHER_PORT : Z := 8000.

(** What the tests and probes of the script find. [health i] is the
    outcome of the [curl] of round [i] of the waiting loop. *)
Record machine : Type := MkMachine {
  aether_dir : bool;
  motion_dir : bool;
  port_in_use : bool;
  config_yaml : bool;
  aether_pid : nat;
  health : nat -> bool;
  package_json : bool;
  node_modules : bool
}.

Inductive action : Type :=
| Pkill (pattern : string)
| KillPortHolders (port : Z)
| Sleep (seconds : nat)
| Cd (dir : string)
| StartAether
| Curl
| KillPid (pid : nat)
| NpmInstall
| NpmRunDev.

Inductive ending : Type :=
| Exit (status : Z)
| Monitoring.

(** [cleanup]: it ends with [exit 0]. *)
Definition cleanup (pid : option nat) : list action * ending :=
  ((match pid with
    | Some p => [KillPid p]
    | None => []
    end ++ [Pkill "python.*aether"; Pkill "electron"])%list, Exit 0).

(** [for i in {1..10}]: [true] when the loop is left with [break] (or runs
    out), [false] when round 10 fails and the script calls [cleanup]. *)
Fixpoint wait_for_health (probe : nat -> bool) (rounds i : nat) : list action * bool :=
  match rounds with
  | O => ([], true)
  | S rounds' =>
      if probe i then ([Curl], true)
      else if Nat.eqb i 10 then ([Curl], false)
      else
        let '(rest, ok) := wait_for_health probe rounds' (S i) in
        (Curl :: Sleep 1 :: rest, ok)
  end.

(** The script up to its monitoring loop. *)
Definition launch (m : machine) : list action * ending :=
  if negb (aether_dir m) then ([], Exit 1)
  else if negb (motion_dir m) then ([], Exit 1)
  else
    let freed :=
      if port_in_use m
      then [Pkill "python.*aether.*8000"; KillPortHolders AETHER_PORT; Sleep 2]
      else [] in
    if negb (config_yaml m) then ((freed ++ [Cd AETHER_PATH])%list, Exit 1)
    else
      let started := (freed ++ [Cd AETHER_PATH; StartAether; Sleep 3])%list in
      let '(probes, ok) := wait_for_health (health m) 10 1 in
      if negb ok then
        let '(stop, e) := cleanup (Some (aether_pid m)) in
        ((started ++ probes ++ stop)%list, e)
      else
        let ready := (started ++ probes ++ [Curl; Cd MOTION_PATH])%list in
        if negb (package_json m) then
          let '(stop, e) := cleanup (Some (aether_pid m)) in
          ((ready ++ stop)%list, e)
        else
          ((ready ++ (if node_modules m then [] else [NpmInstall])
                  ++ [NpmRunDev; Sleep 2])%list, Monitoring).

(** One round of [while true]: [None] when the loop goes on. A failed
    health check only prints a warning. *)
Definition monitor_round (m : machine) (alive : bool) : list action * option ending :=
  if negb alive then
    let '(stop, e) := cleanup (Some (aether_pid m)) in (stop, Some e)
  else ([Curl; Sleep 10], None).

Definition is_curl (a : action) : bool :=
  match a with
  | Curl => true
  | _ => false
  end.

Definition is_sleep (a : action) : bool :=
  match a with
  | Sleep _ => true
  | _ => false
  end.

(** Everything the script needs is in place and the backend answers one
    of the ten probes. *)
Definition fit (m : machine) : Prop :=
  aether_dir m = true /\ motion_dir m = true /\ config_yaml m = true
  /\ package_json m = true
  /\ exists i, (1 <= i <= 10)%nat /\ health m i = true.

Definition laptop : machine :=
  {| aether_dir := true; motion_dir := true; port_in_use := false; config_yaml := true;
     aether_pid := 4242; health := fun i => Nat.leb 3 i; package_json := true;
     node_modules := false |}.

End Launch.

(** ** Further observations *)

Module ObserveMore.
Import Js Aether Observe.

(** Sum of the waits of a trace. *)
Definition total_delay (tr : list effect) : Z := foldr Z.add 0 (delays tr).

Definition is_invoke (ev : event) : bool :=
  match ev with
  | Invoke _ _ _ _ => true
  | FetchSettled _ _ _ | TimerFired _ _ | Resumed _ _ => false
  end.

(** Number of chat calls made in a sequence of events. *)
Definition invocations (evs : list event) : nat := length (List.filter is_invoke evs).

(** [null] or [undefined]. *)
Definition nullish (v : value) : bool :=
  match v with
  | VUndefined | VNull => true
  | _ => false
  end.

End ObserveMore.

Module TerminalObserveMore.
Import Terminal TerminalObserve.

(** Effects that reach a process: write, resize, kill. *)
Definition touches_process (e : effect) : bool :=
  match e with
  | PtyWrite _ _ | PtyResize _ _ _ | PtyKill _ => true
  | PtySpawn _ _ | Emit _ => false
  end.

(** What one [ready] listener of [startClaude] writes to process [pty]. *)
Definition launch_writes (pty : nat) (listener : option Task * option string) : list effect :=
  [PtyWrite pty BANNER;
   PtyWrite pty (claudeCommand (fst listener) (snd listener) +:+ newline)].

(** The chunks the process put out, as the operations report them. *)
Definition produced (ops : list operation) : list string :=
  omap (fun op => match op with ProcessOutput data => Some data | _ => None end) ops.

(** The payloads of the [terminal-output] messages. *)
Definition shown (msgs : list Main.renderer_message) : list string :=
  omap (fun m => if String.eqb (Main.channel m) "terminal-output" then Main.payload m else None)
       msgs.

End TerminalObserveMore.

(** ** The request engine: attempts, backoff, terminal error *)

Section RequestEngine.
Import Js Aether Observe.

Variables (c : AetherClient) (url : string) (init : request_init) (timeout : Z).
Variable net : nat -> fetch_outcome.

Lemma run_attempt_success attempt o :
  succeeds o = true -> exists data, try_block o = inr data /\ run_attempt c attempt o = Done data.
Proof.
  unfold succeeds, run_attempt. destruct (try_block o) as [e|data]; [discriminate|eauto].
Qed.

Lemma run_attempt_failure attempt o :
  succeeds o = false ->
  exists e, failure o = Some e /\ run_attempt c attempt o = catch_block c attempt e.
Proof.
  unfold succeeds, failure, run_attempt. destruct (try_block o) as [e|data]; [eauto|discriminate].
Qed.

Lemma fails_plainly_fails o : fails_plainly o = true -> succeeds o = false /\ aborted o = false.
Proof.
  unfold fails_plainly. destruct (succeeds o), (aborted o); cbn; intros H;
    try discriminate; auto.
Qed.

(** The three kinds of outcome exclude one another and leave nothing out. *)
Lemma outcome_kinds o :
  (succeeds o = true /\ aborted o = false /\ fails_plainly o = false)
  \/ (succeeds o = false /\ aborted o = true /\ fails_plainly o = false)
  \/ (succeeds o = false /\ aborted o = false /\ fails_plainly o = true).
Proof.
  unfold fails_plainly, succeeds, aborted. destruct (try_block o) as [e|data]; [|auto].
  destruct (String.eqb (name e) "AbortError"); auto.
Qed.

(** An attempt aborted by its timer ends the call, whichever attempt it
    is. *)
Lemma run_attempt_aborted attempt o :
  aborted o = true -> run_attempt c attempt o = Fail abort_crash.
Proof.
  unfold aborted, run_attempt, catch_block. destruct (try_block o) as [e|data]; [|discriminate].
  intros ->. reflexivity.
Qed.

Lemma run_attempt_plain_last o :
  fails_plainly o = true ->
  exists e, failure o = Some e /\ run_attempt c (retryCount c) o = Fail (connection_failed e).
Proof.
  intros H. apply fails_plainly_fails in H as [Hs Ha].
  unfold succeeds, aborted, failure, run_attempt, catch_block in *.
  destruct (try_block o) as [e|data]; [|discriminate].
  rewrite Ha, Nat.eqb_refl. eauto.
Qed.

Lemma run_attempt_plain_retry attempt o :
  fails_plainly o = true -> attempt <> retryCount c ->
  run_attempt c attempt o = Retry (retryDelay c * Z.of_nat attempt).
Proof.
  intros H Hne. apply fails_plainly_fails in H as [Hs Ha].
  unfold succeeds, aborted, run_attempt, catch_block in *.
  destruct (try_block o) as [e|data]; [|discriminate].
  apply Nat.eqb_neq in Hne. rewrite Ha, Hne. reflexivity.
Qed.

Lemma request_loop_step iters attempt :
  request_loop c url init timeout net (S iters) attempt =
    let '(rest, result) :=
      match run_attempt c attempt (net attempt) with
      | Done data => ([], Return data)
      | Fail e => ([], Throw (ThrowError e))
      | Retry ms =>
          let '(rest, result) := request_loop c url init timeout net iters (S attempt) in
          (Delay ms :: rest, result)
      end in
    (Fetch url init attempt timeout :: rest, result).
Proof. reflexivity. Qed.

Lemma run_attempt_retry attempt o ms :
  run_attempt c attempt o = Retry ms ->
  attempt <> retryCount c /\ ms = retryDelay c * Z.of_nat attempt /\ succeeds o = false.
Proof.
  unfold run_attempt, succeeds, catch_block.
  destruct (try_block o) as [e|data]; [|discriminate].
  destruct (String.eqb (name e) "AbortError"); [discriminate|].
  destruct (Nat.eqb attempt (retryCount c)) eqn:Heq; [discriminate|].
  intros [= <-]. apply Nat.eqb_neq in Heq. auto.
Qed.

(** Every attempt fails plainly: the loop runs out its iterations and
    throws the error made from the last failure. *)
Lemma request_loop_all_fail iters : forall attempt,
  (attempt + iters = retryCount c)%nat ->
  (forall k, (attempt <= k <= retryCount c)%nat -> fails_plainly (net k) = true) ->
  exists e, failure (net (retryCount c)) = Some e /\
    request_loop c url init timeout net (S iters) attempt =
      (schedule c url init timeout attempt (S iters),
       Throw (ThrowError (connection_failed e))).
Proof.
  induction iters as [|iters IH]; intros attempt Hsum Hfail.
  - assert (attempt = retryCount c) as -> by lia.
    destruct (run_attempt_plain_last (net (retryCount c))) as (e & He & Hrun).
    { apply Hfail. lia. }
    exists e. split; [exact He|]. rewrite request_loop_step, Hrun. reflexivity.
  - destruct (IH (S attempt)) as (e & He & Hloop).
    { lia. } { intros k Hk. apply Hfail. lia. }
    exists e. split; [exact He|].
    rewrite request_loop_step, run_attempt_plain_retry by (try apply Hfail; lia).
    rewrite Hloop. reflexivity.
Qed.

(** The loop up to the first attempt that does not fail plainly: the
    attempts before it are each followed by their wait, and what that
    attempt does ends the call. *)
Lemma request_loop_first_end failed : forall attempt iters,
  (attempt + iters = S (retryCount c))%nat ->
  (failed < iters)%nat ->
  (forall k, (attempt <= k < attempt + failed)%nat -> fails_plainly (net k) = true) ->
  fails_plainly (net (attempt + failed)%nat) = false ->
  request_loop c url init timeout net iters attempt =
    (schedule c url init timeout attempt (S failed),
     match try_block (net (attempt + failed)%nat) with
     | inr data => Return data
     | inl _ => Throw (ThrowError abort_crash)
     end).
Proof.
  induction failed as [|failed IH]; intros attempt iters Hsum Hlt Hfail Hend.
  - destruct iters as [|iters]; [lia|]. rewrite Nat.add_0_r in *.
    rewrite request_loop_step.
    destruct (outcome_kinds (net attempt)) as [(Hs & _)|[(_ & Ha & _)|(_ & _ & Hp)]].
    + destruct (run_attempt_success attempt (net attempt) Hs) as (data & -> & ->).
      reflexivity.
    + rewrite (run_attempt_aborted attempt _ Ha). unfold aborted in Ha.
      destruct (try_block (net attempt)); [reflexivity|discriminate].
    + congruence.
  - destruct iters as [|iters]; [lia|].
    rewrite request_loop_step, run_attempt_plain_retry by (try apply Hfail; lia).
    rewrite (IH (S attempt) iters); [|lia|lia| |].
    + replace (S attempt + failed)%nat with (attempt + S failed)%nat by lia. reflexivity.
    + intros k Hk. apply Hfail. lia.
    + replace (S attempt + failed)%nat with (attempt + S failed)%nat by lia. exact Hend.
Qed.

End RequestEngine.

Section Schedules.
Import Js Aether Observe.

Variables (c : AetherClient) (url : string) (init : request_init) (timeout : Z).

Lemma schedule_step from n :
  schedule c url init timeout from (S (S n)) =
    Fetch url init from timeout :: Delay (retryDelay c * Z.of_nat from)
      :: schedule c url init timeout (S from) (S n).
Proof. reflexivity. Qed.

Lemma fetches_schedule n : forall from,
  fetches (schedule c url init timeout from n) = n.
Proof.
  induction n as [|n IH]; intros from; [reflexivity|].
  destruct n as [|n]; [reflexivity|].
  rewrite schedule_step. specialize (IH (S from)).
  unfold fetches in *. cbn [List.filter is_fetch length].
  rewrite IH. reflexivity.
Qed.

Lemma lookup_skip_two (x y : effect) (l : list effect) (i : nat) :
  (x :: y :: l) !! S (S i) = l !! i.
Proof. reflexivity. Qed.

Lemma schedule_fetch_at n : forall from j,
  (j < n)%nat ->
  schedule c url init timeout from n !! (2 * j)%nat
    = Some (Fetch url init (from + j) timeout).
Proof.
  induction n as [|n IH]; intros from j Hj; [lia|].
  destruct j as [|j].
  - rewrite Nat.add_0_r. reflexivity.
  - destruct n as [|n]; [lia|]. rewrite schedule_step.
    replace (2 * S j)%nat with (S (S (2 * j))) by lia. rewrite lookup_skip_two.
    rewrite IH by lia. do 2 f_equal. lia.
Qed.

Lemma schedule_delay_at n : forall from j,
  (S j < n)%nat ->
  schedule c url init timeout from n !! (2 * j + 1)%nat
    = Some (Delay (retryDelay c * Z.of_nat (from + j))).
Proof.
  induction n as [|n IH]; intros from j Hj; [lia|].
  destruct n as [|n]; [lia|]. rewrite schedule_step.
  destruct j as [|j].
  - rewrite Nat.add_0_r. reflexivity.
  - replace (2 * S j + 1)%nat with (S (S (2 * j + 1))) by lia. rewrite lookup_skip_two.
    rewrite IH by lia. do 3 f_equal. lia.
Qed.

Lemma schedule_length n from :
  (1 <= n)%nat -> length (schedule c url init timeout from n) = (2 * n - 1)%nat.
Proof.
  revert from. induction n as [|n IH]; intros from Hn; [lia|].
  destruct n as [|n]; [reflexivity|].
  rewrite schedule_step. cbn [length]. rewrite IH by lia. lia.
Qed.

(** A schedule ends with an attempt, never with a wait. *)
Lemma schedule_last n from :
  (1 <= n)%nat ->
  last (schedule c url init timeout from n) = Some (Fetch url init (from + n - 1) timeout).
Proof.
  intros Hn. rewrite last_lookup, schedule_length by exact Hn.
  replace (Nat.pred (2 * n - 1)) with (2 * (n - 1))%nat by lia.
  rewrite schedule_fetch_at by lia. do 2 f_equal. lia.
Qed.

Lemma delays_schedule n : forall from,
  delays (schedule c url init timeout from (S n))
    = map (fun k => retryDelay c * Z.of_nat k) (seq from n).
Proof.
  induction n as [|n IH]; intros from; [reflexivity|].
  rewrite schedule_step. unfold delays in *. simpl. f_equal. apply (IH (S from)).
Qed.

(** Whatever the transport does, the trace of the loop is a schedule. *)
Lemma request_loop_schedule net iters : forall attempt,
  (attempt + iters = S (retryCount c))%nat ->
  exists m, (m <= iters)%nat /\ ((1 <= iters)%nat -> (1 <= m)%nat) /\
    fst (request_loop c url init timeout net iters attempt) = schedule c url init timeout attempt m.
Proof.
  induction iters as [|iters IH]; intros attempt Hsum.
  - exists 0%nat. repeat split; [lia|lia].
  - rewrite request_loop_step.
    destruct (run_attempt c attempt (net attempt)) as [data|e|ms] eqn:Hrun.
    + exists 1%nat. repeat split; lia.
    + exists 1%nat. repeat split; lia.
    + apply run_attempt_retry in Hrun as (Hne & -> & _).
      destruct (IH (S attempt)) as (m & Hle & Hpos & Htr); [lia|].
      destruct (request_loop c url init timeout net iters (S attempt)) as [rest result].
      simpl in Htr. subst rest.
      destruct m as [|m]; [lia|].
      exists (S (S m)). split; [lia|]. split; [lia|]. reflexivity.
Qed.

(** The trace depends on the transport only through which attempts
    succeed and which are aborted: the kind of a plain failure plays no
    part. *)
Lemma request_loop_trace_pattern net net' iters : forall attempt,
  (forall k, succeeds (net k) = succeeds (net' k) /\ aborted (net k) = aborted (net' k)) ->
  fst (request_loop c url init timeout net iters attempt)
    = fst (request_loop c url init timeout net' iters attempt).
Proof.
  induction iters as [|iters IH]; intros attempt Hsame; [reflexivity|].
  rewrite !request_loop_step. specialize (IH (S attempt) Hsame).
  destruct (Hsame attempt) as [Hs Ha].
  unfold run_attempt, succeeds, aborted, catch_block in *.
  destruct (try_block (net attempt)) as [e|d], (try_block (net' attempt)) as [e'|d'];
    try discriminate; [|reflexivity].
  rewrite Ha. destruct (String.eqb (name e') "AbortError"); [reflexivity|].
  destruct (Nat.eqb attempt (retryCount c)); [reflexivity|].
  destruct (request_loop c url init timeout net iters (S attempt)),
           (request_loop c url init timeout net' iters (S attempt)).
  simpl in *. congruence.
Qed.

End Schedules.

Section RequestOutcome.
Import Js Aether Observe.

Variables (c : AetherClient) (endpoint : string) (init : request_init).
Variable customTimeout : option Z.
Variable net : nat -> fetch_outcome.

(** Up to any bound, either every attempt fails plainly or there is a
    first one that does not. *)
Lemma first_end_or_none n :
  (forall k, (1 <= k <= n)%nat -> fails_plainly (net k) = true) \/
  (exists s, (1 <= s <= n)%nat /\ fails_plainly (net s) = false /\
             forall j, (1 <= j < s)%nat -> fails_plainly (net j) = true).
Proof.
  induction n as [|n [Hall|(s & Hs & Hok & Hbefore)]].
  - left. intros k Hk. lia.
  - destruct (fails_plainly (net (S n))) eqn:Hn.
    + left. intros k Hk. destruct (Nat.eq_dec k (S n)) as [->|Hne]; [exact Hn|].
      apply Hall. lia.
    + right. exists (S n). split; [lia|]. split; [exact Hn|].
      intros j Hj. apply Hall. lia.
  - right. exists s. split; [lia|]. auto.
Qed.

Lemma request_all_fail :
  (1 <= retryCount c)%nat ->
  (forall k, (1 <= k <= retryCount c)%nat -> fails_plainly (net k) = true) ->
  exists e, failure (net (retryCount c)) = Some e /\
    request c endpoint init customTimeout net =
      (schedule c (baseUrl c +:+ endpoint) init (effective_timeout customTimeout) 1 (retryCount c),
       Throw (ThrowError (connection_failed e))).
Proof.
  intros Hpos Hfail. unfold request.
  destruct (request_loop_all_fail c (baseUrl c +:+ endpoint) init (effective_timeout customTimeout) net (retryCount c - 1) 1)
    as (e & He & Hloop).
  { lia. } { intros k Hk. apply Hfail. lia. }
  exists e. split; [exact He|].
  replace (S (retryCount c - 1)) with (retryCount c) in Hloop by lia. exact Hloop.
Qed.

Lemma request_first_end s :
  (1 <= s <= retryCount c)%nat ->
  (forall j, (1 <= j < s)%nat -> fails_plainly (net j) = true) ->
  fails_plainly (net s) = false ->
  request c endpoint init customTimeout net =
    (schedule c (baseUrl c +:+ endpoint) init (effective_timeout customTimeout) 1 s,
     match try_block (net s) with
     | inr data => Return data
     | inl _ => Throw (ThrowError abort_crash)
     end).
Proof.
  intros Hs Hfail Hend. unfold request.
  destruct s as [|failed]; [lia|].
  apply (request_loop_first_end c (baseUrl c +:+ endpoint) init (effective_timeout customTimeout) net failed 1 (retryCount c)).
  - lia.
  - lia.
  - intros k Hk. apply Hfail. lia.
  - exact Hend.
Qed.

Lemma request_first_success s data :
  (1 <= s <= retryCount c)%nat ->
  (forall j, (1 <= j < s)%nat -> fails_plainly (net j) = true) ->
  try_block (net s) = inr data ->
  request c endpoint init customTimeout net =
    (schedule c (baseUrl c +:+ endpoint) init (effective_timeout customTimeout) 1 s, Return data).
Proof.
  intros Hs Hfail Hok. rewrite (request_first_end s Hs Hfail).
  - rewrite Hok. reflexivity.
  - unfold fails_plainly, succeeds. rewrite Hok. reflexivity.
Qed.

Lemma request_first_abort s :
  (1 <= s <= retryCount c)%nat ->
  (forall j, (1 <= j < s)%nat -> fails_plainly (net j) = true) ->
  aborted (net s) = true ->
  request c endpoint init customTimeout net =
    (schedule c (baseUrl c +:+ endpoint) init (effective_timeout customTimeout) 1 s,
     Throw (ThrowError abort_crash)).
Proof.
  intros Hs Hfail Ha. rewrite (request_first_end s Hs Hfail).
  - unfold aborted in Ha. destruct (try_block (net s)); [reflexivity|discriminate].
  - unfold fails_plainly. rewrite Ha. apply andb_false_r.
Qed.

(** The four ways a call to [request] can go. *)
Lemma request_cases :
  (retryCount c = 0%nat /\ request c endpoint init customTimeout net = ([], Return VUndefined))
  \/ ((1 <= retryCount c)%nat /\
      (forall k, (1 <= k <= retryCount c)%nat -> fails_plainly (net k) = true) /\
      exists e, failure (net (retryCount c)) = Some e /\
        request c endpoint init customTimeout net =
          (schedule c (baseUrl c +:+ endpoint) init (effective_timeout customTimeout) 1 (retryCount c),
           Throw (ThrowError (connection_failed e))))
  \/ (exists s data, (1 <= s <= retryCount c)%nat /\
        (forall j, (1 <= j < s)%nat -> fails_plainly (net j) = true) /\
        try_block (net s) = inr data /\
        request c endpoint init customTimeout net =
          (schedule c (baseUrl c +:+ endpoint) init (effective_timeout customTimeout) 1 s,
           Return data))
  \/ (exists s, (1 <= s <= retryCount c)%nat /\
        (forall j, (1 <= j < s)%nat -> fails_plainly (net j) = true) /\
        aborted (net s) = true /\
        request c endpoint init customTimeout net =
          (schedule c (baseUrl c +:+ endpoint) init (effective_timeout customTimeout) 1 s,
           Throw (ThrowError abort_crash))).
Proof.
  destruct (retryCount c) as [|n] eqn:Hn.
  - left. split; [reflexivity|]. unfold request. rewrite Hn. reflexivity.
  - right. rewrite <- Hn.
    destruct (first_end_or_none (retryCount c)) as [Hall|(s & Hs & Hend & Hbefore)].
    + left. split; [lia|]. split; [exact Hall|]. apply request_all_fail; [lia|exact Hall].
    + right. destruct (outcome_kinds (net s)) as [(Hok & _)|[(_ & Ha & _)|(_ & _ & Hp)]].
      * left. destruct (run_attempt_success c s (net s) Hok) as (data & Hdata & _).
        exists s, data. repeat split; try lia; try assumption.
        apply request_first_success; assumption.
      * right. exists s. repeat split; try lia; try assumption.
        apply request_first_abort; assumption.
      * congruence.
Qed.

(** What [request] throws is always an [Error] object. *)
Lemma request_throws_error t :
  snd (request c endpoint init customTimeout net) = Throw t ->
  exists e, t = ThrowError e.
Proof.
  destruct request_cases
    as [(_ & ->)|[(_ & _ & e & _ & ->)|[(s & data & _ & _ & _ & ->)|(s & _ & _ & _ & ->)]]];
    simpl; intros [=]; subst; eauto.
Qed.

End RequestOutcome.

Section RequestClaims.
Import Js Aether Observe Sample.

(** The scenario of the specification: two failures, then [{status: "ok"}];
    two waits, of 1000ms and 2000ms. *)
Example health_third_time_lucky :
  request client3 "/health" no_options (Some 30000) third_time_lucky =
    ([Fetch "http://localhost:8000/health" no_options 1 30000; Delay 1000;
      Fetch "http://localhost:8000/health" no_options 2 30000; Delay 2000;
      Fetch "http://localhost:8000/health" no_options 3 30000],
     Return ok_status).
Proof. reflexivity. Qed.

(** C4, on the code: with three attempts allowed and every attempt timing
    out, [request] makes one attempt, not three, and throws the
    [TypeError] of the assignment in its [catch] block; and when the
    service would answer the second attempt, that attempt is never made. *)
Theorem a_timeout_ends_the_call :
  retryCount client3 = 3%nat
  /\ (forall k, succeeds (always timed_out k) = false)
  /\ request client3 "/health" no_options None (always timed_out) =
       ([Fetch "http://localhost:8000/health" no_options 1 30000],
        Throw (ThrowError (new_TypeError READONLY_MESSAGE)))
  /\ fetches (fst (request client3 "/health" no_options None (always timed_out))) = 1%nat
  /\ succeeds (timed_out_then_healthy 2%nat) = true
  /\ request client3 "/health" no_options None timed_out_then_healthy =
       ([Fetch "http://localhost:8000/health" no_options 1 30000],
        Throw (ThrowError (new_TypeError READONLY_MESSAGE))).
Proof. repeat split; reflexivity. Qed.


(** C6, on the code: all three attempts are used up and the last one
    timed out; what [request] throws is the [TypeError] of the assignment,
    not the error with the "taking too long" text. *)
Theorem last_timeout_is_a_type_error :
  fetches (fst (request client3 "/health" no_options None timed_out_at_last)) = 3%nat
  /\ aborted (timed_out_at_last 3%nat) = true
  /\ snd (request client3 "/health" no_options None timed_out_at_last)
       = Throw (ThrowError (new_TypeError READONLY_MESSAGE))
  /\ snd (request client3 "/health" no_options None timed_out_at_last)
       <> Throw (ThrowError (new_Error TOO_LONG)).
Proof. repeat split; try reflexivity. discriminate. Qed.


End RequestClaims.

(** ** Session identity *)

Section SessionIdentity.
Import Js Aether Observe Sample.

Example fresh_session_id_reading_c : fresh_session_id reading_c = "session_1700000000001_82mvyr".
Proof. vm_compute. reflexivity. Qed.

Lemma fresh_session_id_truthy en : falsy_item (Some (fresh_session_id en)) = false.
Proof. reflexivity. Qed.

Lemma getOrCreateSessionId_absent en (ls : gmap string string) :
  falsy_item (ls !! SESSION_KEY) = true ->
  getOrCreateSessionId en ls = (fresh_session_id en, <[SESSION_KEY := fresh_session_id en]> ls).
Proof. intros H. unfold getOrCreateSessionId. rewrite H. reflexivity. Qed.

Lemma getOrCreateSessionId_present en (ls : gmap string string) token :
  ls !! SESSION_KEY = Some token -> falsy_item (Some token) = false ->
  getOrCreateSessionId en ls = (token, ls).
Proof. intros Hl Hf. unfold getOrCreateSessionId. rewrite Hl, Hf. reflexivity. Qed.

(** After a call the storage holds the token that was returned. *)
Lemma getOrCreateSessionId_stored en (ls : gmap string string) :
  let '(token, ls') := getOrCreateSessionId en ls in
  ls' !! SESSION_KEY = Some token /\ falsy_item (Some token) = false.
Proof.
  destruct (falsy_item (ls !! SESSION_KEY)) eqn:Hf.
  - rewrite getOrCreateSessionId_absent by exact Hf.
    split; [apply lookup_insert_eq|apply fresh_session_id_truthy].
  - destruct (ls !! SESSION_KEY) as [token|] eqn:Hl; [|discriminate].
    rewrite (getOrCreateSessionId_present en ls token Hl Hf). auto.
Qed.

Lemma clearSession_mints en c (ls : gmap string string) :
  clearSession en c ls =
    (set_sessionId c (fresh_session_id en),
     <[SESSION_KEY := fresh_session_id en]> (delete SESSION_KEY ls)).
Proof.
  unfold clearSession. rewrite getOrCreateSessionId_absent; [reflexivity|].
  rewrite lookup_delete_eq. reflexivity.
Qed.

(** The decimal digits of a number hold no underscore. *)
Lemma pretty_N_go_no_underscore x : forall s,
  occurs "_" s = false -> occurs "_" (pretty_N_go x s) = false.
Proof.
  induction (N.lt_wf_0 x) as [x _ IH]. intros s Hs.
  destruct (N.eq_dec x 0%N) as [->|Hx].
  - rewrite pretty_N_go_0. exact Hs.
  - rewrite pretty_N_go_step by lia. apply IH.
    + apply N.div_lt; lia.
    + cbn [occurs].
      assert (Ascii.eqb "_" (pretty_N_char (x `mod` 10)) = false) as ->; [|exact Hs].
      unfold pretty_N_char. repeat case_match; reflexivity.
Qed.

Lemma pretty_Z_no_underscore (z : Z) : occurs "_" (pretty z) = false.
Proof.
  destruct z as [|p|p]; [reflexivity| |].
  - unfold pretty, pretty_Z, pretty, pretty_positive, pretty, pretty_N.
    case_decide; [reflexivity|]. apply pretty_N_go_no_underscore. reflexivity.
  - unfold pretty, pretty_Z. cbn [String.append occurs Ascii.eqb Bool.eqb].
    unfold pretty, pretty_positive, pretty, pretty_N.
    case_decide; [reflexivity|]. apply pretty_N_go_no_underscore. reflexivity.
Qed.

(** Two strings cut at their first underscore agree on both sides. *)
Lemma cut_at_underscore a : forall a' s s',
  occurs "_" a = false -> occurs "_" a' = false ->
  a +:+ String "_" s = a' +:+ String "_" s' -> a = a' /\ s = s'.
Proof.
  induction a as [|x a IH]; intros [|x' a'] s s' Ha Ha' Heq;
    cbn [String.append occurs] in *.
  - injection Heq as ->. auto.
  - injection Heq as <- _. rewrite Ascii.eqb_refl in Ha'. discriminate.
  - injection Heq as -> _. rewrite Ascii.eqb_refl in Ha. discriminate.
  - injection Heq as -> Heq.
    destruct (Ascii.eqb "_" x'); [discriminate|].
    destruct (IH a' s s' Ha Ha' Heq) as [-> ->]. auto.
Qed.

(** A minted token determines the clock reading and the random suffix it
    was made from. *)
Lemma fresh_session_id_inj en en' :
  fresh_session_id en = fresh_session_id en' ->
  date_now en = date_now en'
  /\ substring_from 7 (random_base36 en) = substring_from 7 (random_base36 en').
Proof.
  unfold fresh_session_id. intros Heq.
  assert (Hcut : pretty (date_now en) +:+ String "_" (substring_from 7 (random_base36 en))
               = pretty (date_now en') +:+ String "_" (substring_from 7 (random_base36 en'))).
  { simpl in Heq. injection Heq as Heq. exact Heq. }
  apply cut_at_underscore in Hcut as [Hd Hs]; try apply pretty_Z_no_underscore.
  split; [|exact Hs]. apply (inj pretty). exact Hd.
Qed.

(** A client made and reset within one millisecond, both random numbers
    printing short: the reset mints the token it was meant to replace. *)
Lemma clear_can_mint_the_same_token :
  let '(c0, ls0) := constructor reading_a ∅ in
  let '(c1, ls1) := clearSession reading_b c0 ls0 in
  ls0 !! SESSION_KEY = Some (sessionId c0)
  /\ fst (getOrCreateSessionId reading_c ls1) = sessionId c0.
Proof. vm_compute. split; reflexivity. Qed.

(** C8, amended. [getOrCreateSessionId] twice in a row returns the same
    token; on return from [clearSession] the storage and the client hold the
    token just minted from the clock and the random source, and the next
    [getOrCreateSessionId] returns it; it differs from the value held before
    unless that value is this very string, and so differs from any token
    minted at another clock reading or with another random suffix. *)
Theorem session_identity_contract (en1 en2 : entropy) (c : AetherClient)
    (ls : gmap string string) :
  fst (getOrCreateSessionId en2 (snd (getOrCreateSessionId en1 ls)))
    = fst (getOrCreateSessionId en1 ls)
  /\ (let '(c1, ls1) := clearSession en1 c ls in
      sessionId c1 = fresh_session_id en1
      /\ ls1 !! SESSION_KEY = Some (sessionId c1)
      /\ falsy_item (ls1 !! SESSION_KEY) = false
      /\ fst (getOrCreateSessionId en2 ls1) = fresh_session_id en1
      /\ (forall old, ls !! SESSION_KEY = Some old -> old <> fresh_session_id en1 ->
            fst (getOrCreateSessionId en2 ls1) <> old)
      /\ (forall en0, ls !! SESSION_KEY = Some (fresh_session_id en0) ->
            date_now en0 <> date_now en1
            \/ substring_from 7 (random_base36 en0) <> substring_from 7 (random_base36 en1) ->
            fst (getOrCreateSessionId en2 ls1) <> fresh_session_id en0)).
Proof.
  split.
  - pose proof (getOrCreateSessionId_stored en1 ls) as Hst.
    destruct (getOrCreateSessionId en1 ls) as [token ls'] eqn:Hfirst.
    destruct Hst as [Hl Hf]. cbn [fst snd].
    rewrite (getOrCreateSessionId_present en2 ls' token Hl Hf). reflexivity.
  - rewrite clearSession_mints. cbn [sessionId set_sessionId].
    assert (Hl : (<[SESSION_KEY := fresh_session_id en1]> (delete SESSION_KEY ls)
                   : gmap string string) !! SESSION_KEY = Some (fresh_session_id en1))
      by apply lookup_insert_eq.
    assert (Hnext : fst (getOrCreateSessionId en2
                      (<[SESSION_KEY := fresh_session_id en1]> (delete SESSION_KEY ls)))
                    = fresh_session_id en1).
    { rewrite (getOrCreateSessionId_present en2 _ _ Hl (fresh_session_id_truthy en1)).
      reflexivity. }
    split; [reflexivity|]. split; [exact Hl|]. split; [rewrite Hl; reflexivity|].
    split; [exact Hnext|]. split.
    + intros old _ Hne. rewrite Hnext. congruence.
    + intros en0 _ Hdiff. rewrite Hnext. intros Heq.
      apply fresh_session_id_inj in Heq as [Hd Hs]. destruct Hdiff; congruence.
Qed.

Lemma session_identity_contract_witness :
  fst (getOrCreateSessionId reading_b
         (snd (clearSession reading_c client3 {[ SESSION_KEY := fresh_session_id reading_a ]})))
    <> fresh_session_id reading_a.
Proof.
  pose proof (session_identity_contract reading_c reading_b client3
                {[ SESSION_KEY := fresh_session_id reading_a ]}) as [_ H].
  destruct (clearSession reading_c client3 {[ SESSION_KEY := fresh_session_id reading_a ]})
    as [c1 ls1].
  destruct H as (_ & _ & _ & _ & _ & Hfresh). cbn [snd].
  apply (Hfresh reading_a).
  - apply lookup_singleton_eq.
  - left. cbn. lia.
Defined.

End SessionIdentity.

(** ** Chat: one call run to completion *)

Section ChatCall.
Import Js Aether Observe ObserveMore Sample.

Example chat_success :
  sendChatMessage client3 "hi" None "t0" "t1" (always greeting) =
    (client3,
     [Fetch "http://localhost:8000/api/chat"
        (POST (VObj [("message", VStr "hi"); ("session_id", VStr "session_1_abc");
                     ("timestamp", VStr "t0")])) 1 90000],
     Return {| success := true; response := Some (VStr "Hello"); error := None;
               result_sessionId := "session_1_abc"; timestamp := "t1" |}).
Proof. reflexivity. Qed.

Example chat_failure_is_structured :
  snd (sendChatMessage client3 "hi" None "t0" "t1" (always refused)) =
    Return (chat_failure client3 "t1" "Connection failed: Failed to fetch")
  /\ snd (sendChatMessage client3 "hi" None "t0" "t1" (always timed_out)) =
       Return (chat_failure client3 "t1" READONLY_MESSAGE).
Proof. split; reflexivity. Qed.

(** Other operations let the terminal error of [request] through. *)
Example health_failure_propagates :
  snd (getHealth client3 (always refused))
    = Throw (ThrowError (new_Error "Connection failed: Failed to fetch")).
Proof. reflexivity. Qed.

(** A body that decodes to [null] fails inside the [try] block and is
    reported like any other failure. *)
Example chat_null_body_is_structured :
  exists msg, snd (sendChatMessage client3 "hi" None "t0" "t1"
                     (always (Responds true 200 "OK" (inr VNull))))
              = Return (chat_failure client3 "t1" msg).
Proof. eexists. reflexivity. Qed.

(** A callback that throws [null] makes the [catch] block itself throw. *)
Example chat_callback_throwing_null_rejects :
  exists e, snd (sendChatMessage client3 "hi" (Some throws_null) "t0" "t1" (always greeting))
            = Throw (ThrowError e).
Proof. eexists. reflexivity. Qed.

Lemma chat_settle_clears_flag c now cb r :
  isRequestInProgress (fst (chat_settle c now cb r)) = false.
Proof. reflexivity. Qed.

Lemma chat_catch_error c now e :
  chat_catch c now (ThrowError e) = Return (chat_failure c now (message e)).
Proof. reflexivity. Qed.

(** What the [try] block can throw: an [Error] object, or whatever the
    callback threw. *)
Lemma chat_try_throws c now cb r t :
  chat_try c now cb r = Throw t ->
  (forall t', r = Throw t' -> exists e, t' = ThrowError e) ->
  (exists e, t = ThrowError e) \/ (exists callback v, cb = Some callback /\ callback v = Some t).
Proof.
  intros Htry Hr. unfold chat_try, mbind, completion_bind, mret, completion_ret in Htry.
  destruct r as [resp|t0].
  2:{ injection Htry as <-. left. apply Hr. reflexivity. }
  assert (Hget : forall k tg, get resp k = Throw tg -> exists e, tg = ThrowError e).
  { intros k tg. unfold get. destruct resp; intros [=]; subst; eauto. }
  repeat match goal with
  | H : context [match ?x with _ => _ end] |- _ => destruct x eqn:?; try discriminate
  end.
  all: simplify_eq; eauto.
Qed.

(** The second of two chat calls made back to back: its promise is
    rejected, it does not resolve to a result object. *)
Lemma single_flight_rejection_is_raised :
  settled (run (fresh_page client3) [Invoke 1 "first" None "t0"; Invoke 2 "second" None "t1"])
    = [(2%nat, Throw (ThrowError (new_Error "Another request is already in progress. Please wait.")))]
  /\ snd (sendChatMessage busy_client "second" None "t1" "t2" (always greeting))
    = Throw (ThrowError (new_Error "Another request is already in progress. Please wait.")).
Proof. split; reflexivity. Qed.

(** What the [catch] block makes of a thrown value that is neither
    [null] nor [undefined]. *)
Lemma chat_catch_value c now v :
  nullish v = false ->
  exists m, get v "message" = Return m
    /\ chat_catch c now (ThrowValue v) =
         Return {| success := false; response := None; error := Some m;
                   result_sessionId := sessionId c; timestamp := now |}.
Proof.
  intros Hv. destruct v; try discriminate; eexists; split; reflexivity.
Qed.

Lemma get_nullish v k : nullish v = true -> exists e, get v k = Throw (ThrowError e).
Proof. destruct v; try discriminate; intros _; eexists; reflexivity. Qed.

Lemma get_not_nullish v k : nullish v = false -> exists x, get v k = Return x.
Proof. destruct v; try discriminate; intros _; eexists; reflexivity. Qed.

(** C1, amended. A chat call made while another is outstanding is rejected
    with the single-flight error, without any transport attempt. On a call
    that is accepted every failure resolves to
    [{ success: false, error, sessionId, timestamp }]: a request that
    throws (with its message), a body that is [null] or [undefined], a
    stream callback that throws an [Error] (with its message) or any value
    other than [null] and [undefined] (with that value's [message]
    property); and when nothing fails the call resolves with
    [success: true]. The one path that rejects on an accepted call is a
    callback throwing [null] or [undefined]. The flag is clear afterwards
    in every case. Every failure of [getChatHistory] resolves to the empty
    history. *)
Theorem chat_failures_resolve_once_accepted (c : AetherClient) (message : string)
    (onStreamUpdate : option stream_callback) (now_sent now_settled : string)
    (net : nat -> fetch_outcome) :
  let '(c', wire, outcome) :=
    sendChatMessage c message onStreamUpdate now_sent now_settled net in
  let requested :=
    snd (request (set_inProgress c true) "/api/chat"
           (POST (chat_payload c message now_sent)) (Some CHAT_TIMEOUT) net) in
  let failed reason :=
    Return {| success := false; response := None; error := Some reason;
              result_sessionId := sessionId c; timestamp := now_settled |} in
  (isRequestInProgress c = true ->
     outcome = Throw (ThrowError (new_Error SINGLE_FLIGHT_MESSAGE)) /\ wire = [] /\ c' = c)
  /\ (isRequestInProgress c = false ->
       isRequestInProgress c' = false
       /\ (forall t, requested = Throw t ->
            exists e, t = ThrowError e /\ outcome = failed (VStr (Js.message e)))
       /\ (forall data, requested = Return data -> nullish data = true ->
            exists e, get data "response" = Throw (ThrowError e)
              /\ outcome = failed (VStr (Js.message e)))
       /\ (forall data text callback thrown_value,
            requested = Return data -> get data "response" = Return text ->
            truthy text = true -> onStreamUpdate = Some callback ->
            callback text = Some thrown_value ->
            match thrown_value with
            | ThrowError e => outcome = failed (VStr (Js.message e))
            | ThrowValue v =>
                if nullish v then exists e, outcome = Throw (ThrowError e)
                else exists m, get v "message" = Return m /\ outcome = failed m
            end)
       /\ (forall data text,
            requested = Return data -> get data "response" = Return text ->
            (forall callback, onStreamUpdate = Some callback -> truthy text = true ->
               callback text = None) ->
            exists reply,
              outcome = Return {| success := true; response := Some reply; error := None;
                                  result_sessionId := sessionId c;
                                  timestamp := now_settled |})
       /\ (throws_no_nullish onStreamUpdate -> exists result, outcome = Return result))
  /\ (exists history, snd (getChatHistory c net) = Return history
        /\ (forall t, snd (request c ("/api/chat/history/" +:+ sessionId c) no_options None net)
                        = Throw t -> history = EMPTY_HISTORY)).
Proof.
  unfold sendChatMessage. destruct (isRequestInProgress c) eqn:Hflag.
  - split; [auto|]. split; [discriminate|].
    unfold getChatHistory.
    destruct (request c ("/api/chat/history/" +:+ sessionId c) no_options None net)
      as [tr [h|t]]; cbn [snd]; eexists; split; try reflexivity; intros; congruence.
  - change (chat_payload (set_inProgress c true) message now_sent)
      with (chat_payload c message now_sent).
    pose proof (request_throws_error (set_inProgress c true) "/api/chat"
                  (POST (chat_payload c message now_sent)) (Some CHAT_TIMEOUT) net) as Herr.
    destruct (request (set_inProgress c true) "/api/chat"
                (POST (chat_payload c message now_sent)) (Some CHAT_TIMEOUT) net)
      as [tr r]. cbn [snd] in *.
    unfold chat_settle. cbv zeta. split; [discriminate|]. split.
    + intros _. split; [reflexivity|]. split; [|split; [|split; [|split]]].
      * intros t ->. destruct (Herr t eq_refl) as (e & ->).
        exists e. split; reflexivity.
      * intros data -> Hnull. destruct (get_nullish data "response" Hnull) as [e He].
        exists e. split; [exact He|].
        unfold chat_try, mbind, completion_bind, mret, completion_ret.
        rewrite He. destruct onStreamUpdate; reflexivity.
      * intros data text callback thrown_value -> Hget Htruthy -> Hcb.
        unfold chat_try, mbind, completion_bind, mret, completion_ret.
        rewrite Hget, Htruthy, Hcb.
        destruct thrown_value as [e|v]; [reflexivity|].
        destruct (nullish v) eqn:Hv.
        -- destruct (get_nullish v "message" Hv) as [e He].
           exists e. unfold chat_catch, thrown_message, mbind, completion_bind.
           rewrite He. reflexivity.
        -- destruct (chat_catch_value (set_inProgress c true) now_settled v Hv)
             as (m & Hm & Hcatch).
           exists m. split; [exact Hm|]. exact Hcatch.
      * intros data text -> Hget Hcb.
        unfold chat_try, mbind, completion_bind, mret, completion_ret.
        rewrite Hget.
        assert (Hstream :
                  match onStreamUpdate with
                  | Some callback =>
                      if truthy text
                      then match callback text with
                           | Some t => Throw t
                           | None => Return ()
                           end
                      else Return ()
                  | None => Return ()
                  end = Return ()).
        { destruct onStreamUpdate as [callback|]; [|reflexivity].
          destruct (truthy text) eqn:Htruthy; [|reflexivity].
          rewrite (Hcb callback eq_refl eq_refl). reflexivity. }
        rewrite Hstream. destruct (truthy text) eqn:Htruthy.
        -- eexists. reflexivity.
        -- assert (Hdata : nullish data = false).
           { destruct data; try reflexivity; discriminate. }
           destruct (get_not_nullish data "message" Hdata) as [msg ->].
           eexists. reflexivity.
      * intros Hcb.
        destruct (chat_try (set_inProgress c true) now_settled onStreamUpdate r)
          as [res|t] eqn:Htry; [eauto|].
        apply chat_try_throws in Htry as [(e & ->)|(callback & v & -> & Hthrown)].
        -- rewrite chat_catch_error. eauto.
        -- destruct (Hcb callback v eq_refl) as [Hnull Hundef].
           destruct t as [e|v0]; [rewrite chat_catch_error; eauto|].
           unfold chat_catch, thrown_message, get.
           destruct v0; cbn; eauto; congruence.
        -- intros t' ->. destruct (Herr t' eq_refl) as (e & ->). eauto.
    + unfold getChatHistory.
      destruct (request c ("/api/chat/history/" +:+ sessionId c) no_options None net)
        as [tr' [h|t]]; cbn [snd]; eexists; split; try reflexivity; intros; congruence.
Qed.

Lemma chat_failures_resolve_once_accepted_witness :
  snd (sendChatMessage busy_client "hi" None "t0" "t1" (always refused))
    = Throw (ThrowError (new_Error SINGLE_FLIGHT_MESSAGE))
  /\ (exists e, snd (sendChatMessage client3 "hi" None "t0" "t1" (always timed_out))
                 = Return (chat_failure client3 "t1" (Js.message e)))
  /\ (exists e, snd (sendChatMessage client3 "hi" None "t0" "t1"
                       (always (Responds true 200 "OK" (inr VNull))))
                 = Return (chat_failure client3 "t1" (Js.message e)))
  /\ snd (sendChatMessage client3 "hi"
            (Some (fun _ => Some (ThrowError (new_Error "render failed")))) "t0" "t1"
            (always greeting))
      = Return (chat_failure client3 "t1" "render failed").
Proof.
  split; [|split; [|split]].
  - pose proof (chat_failures_resolve_once_accepted busy_client "hi" None "t0" "t1"
                  (always refused)) as H.
    destruct (sendChatMessage busy_client "hi" None "t0" "t1" (always refused))
      as [[c' wire] outcome].
    destruct H as (Hbusy & _ & _). apply Hbusy. reflexivity.
  - pose proof (chat_failures_resolve_once_accepted client3 "hi" None "t0" "t1"
                  (always timed_out)) as H.
    destruct (sendChatMessage client3 "hi" None "t0" "t1" (always timed_out))
      as [[c' wire] outcome].
    destruct H as (_ & Hfree & _). destruct (Hfree eq_refl) as (_ & Hthrow & _).
    destruct (Hthrow (ThrowError (new_TypeError READONLY_MESSAGE)) eq_refl) as (e & _ & ->).
    exists e. reflexivity.
  - pose proof (chat_failures_resolve_once_accepted client3 "hi" None "t0" "t1"
                  (always (Responds true 200 "OK" (inr VNull)))) as H.
    destruct (sendChatMessage client3 "hi" None "t0" "t1"
                (always (Responds true 200 "OK" (inr VNull)))) as [[c' wire] outcome].
    destruct H as (_ & Hfree & _). destruct (Hfree eq_refl) as (_ & _ & Hnull & _).
    destruct (Hnull VNull eq_refl eq_refl) as (e & _ & ->).
    exists e. reflexivity.
  - pose proof (chat_failures_resolve_once_accepted client3 "hi"
                  (Some (fun _ => Some (ThrowError (new_Error "render failed")))) "t0" "t1"
                  (always greeting)) as H.
    destruct (sendChatMessage client3 "hi"
                (Some (fun _ => Some (ThrowError (new_Error "render failed")))) "t0" "t1"
                (always greeting)) as [[c' wire] outcome].
    destruct H as (_ & Hfree & _). destruct (Hfree eq_refl) as (_ & _ & _ & Hcb & _).
    apply (Hcb (VObj [("response", VStr "Hello")]) (VStr "Hello")
               (fun _ => Some (ThrowError (new_Error "render failed")))
               (ThrowError (new_Error "render failed"))); reflexivity.
Defined.

End ChatCall.

(** ** Chat: calls interleaved on the event loop *)

Section EventLoop.
Import Js Aether Observe Sample.

(** Two calls back to back, the first one settling, then a third call. *)
Example second_call_rejected_third_accepted :
  let p := run (fresh_page client3)
             [Invoke 1 "first" None "t0"; Invoke 2 "second" None "t1";
              FetchSettled 1 greeting "t2"; Invoke 3 "third" None "t3"] in
  map fst (wire p) = [1%nat; 3%nat]
  /\ map fst (settled p) = [2%nat; 1%nat]
  /\ map call_id (inflight p) = [3%nat].
Proof. repeat split; reflexivity. Qed.

(** A client whose [retryCount] was set to 0: the first call makes no
    attempt and is still outstanding when a second call is made in the same
    turn; it settles in its microtask. *)
Example no_retries_two_calls_in_one_turn :
  let c0 := MkClient AETHER_BASE_URL 0 1000 "session_1_abc" false in
  let p := run (fresh_page c0) [Invoke 1 "first" None "t0"; Invoke 2 "second" None "t0"] in
  wire p = [] /\ map call_id (inflight p) = [1%nat] /\ map fst (settled p) = [2%nat]
  /\ isRequestInProgress (client p) = true
  /\ isRequestInProgress (client (step p (Resumed 1 "t1"))) = false
  /\ map fst (settled (step p (Resumed 1 "t1"))) = [2%nat; 1%nat].
Proof. repeat split; reflexivity. Qed.

Lemma run_snoc p evs ev : run p (evs ++ [ev]) = step (run p evs) ev.
Proof. unfold run. rewrite fold_left_app. reflexivity. Qed.

Lemma find_call_singleton id k k0 :
  find_call id [k0] = Some k -> k = k0 /\ call_id k0 = id.
Proof.
  unfold find_call. cbn. destruct (Nat.eqb (call_id k0) id) eqn:Heq; [|discriminate].
  intros [= <-]. apply Nat.eqb_eq in Heq. auto.
Qed.

Lemma drop_call_singleton k : drop_call (call_id k) [k] = [].
Proof. unfold drop_call. cbn. rewrite Nat.eqb_refl. reflexivity. Qed.

Lemma settle_single_flight p k now r :
  inflight p = [k] \/ inflight p = [] -> single_flight (settle p k now r).
Proof.
  intros Hin. unfold settle, single_flight. cbn.
  destruct Hin as [-> | ->]; [rewrite drop_call_singleton|]; reflexivity.
Qed.

Lemma enter_attempt_single_flight p k attempt :
  isRequestInProgress (client p) = true ->
  inflight p = [k] \/ inflight p = [] ->
  single_flight (enter_attempt p k attempt).
Proof.
  intros Hflag Hin. unfold enter_attempt.
  destruct (Nat.leb attempt (retryCount (client p)));
    unfold single_flight; cbn [inflight client];
    (destruct Hin as [-> | ->]; [rewrite drop_call_singleton|]); exact Hflag.
Qed.

(** No event breaks the single-flight discipline. *)
Lemma step_single_flight p ev : single_flight p -> single_flight (step p ev).
Proof.
  intros Hinv. unfold single_flight in Hinv.
  destruct (inflight p) as [|k0 [|k1 rest]] eqn:Hin; [| |contradiction].
  - (* nothing outstanding *)
    destruct ev as [id message cb now|id o now|id now|id now]; cbn [step].
    + rewrite Hinv. apply enter_attempt_single_flight; [reflexivity|]. right. exact Hin.
    + rewrite Hin. cbn. unfold single_flight. rewrite Hin. exact Hinv.
    + rewrite Hin. cbn. unfold single_flight. rewrite Hin. exact Hinv.
    + rewrite Hin. cbn. unfold single_flight. rewrite Hin. exact Hinv.
  - (* one call outstanding *)
    assert (Hsame : single_flight p) by (unfold single_flight; rewrite Hin; exact Hinv).
    destruct ev as [id message cb now|id o now|id now|id now]; cbn [step].
    + rewrite Hinv. unfold single_flight. cbn. rewrite Hin. exact Hinv.
    + rewrite Hin. destruct (find_call id [k0]) as [k|] eqn:Hfind; [|exact Hsame].
      apply find_call_singleton in Hfind as [-> <-].
      destruct (call_phase k0) as [attempt|attempt|r]; [|exact Hsame|exact Hsame].
      destruct (run_attempt (client p) attempt o) as [data|e|ms].
      * apply settle_single_flight. left. exact Hin.
      * apply settle_single_flight. left. exact Hin.
      * unfold single_flight. cbn [inflight client]. rewrite drop_call_singleton. exact Hinv.
    + rewrite Hin. destruct (find_call id [k0]) as [k|] eqn:Hfind; [|exact Hsame].
      apply find_call_singleton in Hfind as [-> <-].
      destruct (call_phase k0) as [attempt|attempt|r]; [exact Hsame| |exact Hsame].
      apply enter_attempt_single_flight; [exact Hinv|]. left. exact Hin.
    + rewrite Hin. destruct (find_call id [k0]) as [k|] eqn:Hfind; [|exact Hsame].
      apply find_call_singleton in Hfind as [-> <-].
      destruct (call_phase k0) as [attempt|attempt|r]; [exact Hsame|exact Hsame|].
      apply settle_single_flight. left. exact Hin.
Qed.

Lemma run_single_flight c evs : single_flight (run (fresh_page c) evs).
Proof.
  induction evs as [|ev evs IH] using rev_ind.
  - reflexivity.
  - rewrite run_snoc. apply step_single_flight. exact IH.
Qed.

Lemma single_flight_flag p :
  single_flight p -> (isRequestInProgress (client p) = true <-> inflight p <> []).
Proof.
  unfold single_flight. destruct (inflight p) as [|k0 [|k1 rest]]; intros H.
  - rewrite H. split; [discriminate|congruence].
  - rewrite H. split; [discriminate|reflexivity].
  - contradiction.
Qed.

Lemma single_flight_length p : single_flight p -> (length (inflight p) <= 1)%nat.
Proof.
  unfold single_flight. destruct (inflight p) as [|k0 [|k1 rest]]; cbn; intros H;
    [lia|lia|contradiction].
Qed.

Lemma step_fetch_settled c1 id init cb attempt w done o now :
  step {| client := c1;
          inflight := [{| call_id := id; call_init := init; call_callback := cb;
                          call_phase := Fetching attempt |}];
          wire := w; settled := done |} (FetchSettled id o now) =
    match run_attempt c1 attempt o with
    | Done data =>
        {| client := fst (chat_settle c1 now cb (Return data)); inflight := []; wire := w;
           settled := (done ++ [(id, snd (chat_settle c1 now cb (Return data)))])%list |}
    | Fail e =>
        {| client := fst (chat_settle c1 now cb (Throw (ThrowError e))); inflight := [];
           wire := w;
           settled := (done ++
             [(id, snd (chat_settle c1 now cb (Throw (ThrowError e))))])%list |}
    | Retry ms =>
        {| client := c1;
           inflight := [{| call_id := id; call_init := init; call_callback := cb;
                           call_phase := Sleeping attempt |}];
           wire := (w ++ [(id, Delay ms)])%list; settled := done |}
    end.
Proof.
  cbn [step inflight]. unfold find_call. cbn [find call_id].
  rewrite Nat.eqb_refl. cbn [call_phase client].
  destruct (run_attempt c1 attempt o); unfold settle, drop_call, set_phase;
    cbn [client inflight wire settled call_id call_init call_callback List.filter];
    rewrite Nat.eqb_refl; reflexivity.
Qed.

Lemma step_timer_fired c1 id init cb attempt w done now :
  Nat.leb (S attempt) (retryCount c1) = true ->
  step {| client := c1;
          inflight := [{| call_id := id; call_init := init; call_callback := cb;
                          call_phase := Sleeping attempt |}];
          wire := w; settled := done |} (TimerFired id now) =
    {| client := c1;
       inflight := [{| call_id := id; call_init := init; call_callback := cb;
                       call_phase := Fetching (S attempt) |}];
       wire := (w ++ [(id, Fetch (chat_url c1) init (S attempt) CHAT_TIMEOUT)])%list;
       settled := done |}.
Proof.
  intros Hle. cbn [step inflight]. unfold find_call. cbn [find call_id].
  rewrite Nat.eqb_refl. cbn [call_phase]. unfold enter_attempt. cbn [client].
  rewrite Hle. unfold drop_call, set_phase.
  cbn [client inflight wire settled call_id call_init call_callback List.filter].
  rewrite Nat.eqb_refl. reflexivity.
Qed.

Lemma drive_step c1 id net now iters attempt :
  drive c1 id net now (S iters) attempt =
    FetchSettled id (net attempt) now ::
    match run_attempt c1 attempt (net attempt) with
    | Retry _ => TimerFired id now :: drive c1 id net now iters (S attempt)
    | Done _ | Fail _ => []
    end.
Proof. reflexivity. Qed.

(** A call alone on the event loop, from the moment attempt [attempt] is
    on the wire: the events of [drive] take it through the rest of the loop
    of [request] and through the end of [sendChatMessage]. *)
Lemma drive_request_loop c1 id init cb net now iters : forall attempt w done,
  (attempt + iters = retryCount c1)%nat ->
  let '(tr, r) := request_loop c1 (chat_url c1) init CHAT_TIMEOUT net (S iters) attempt in
  run {| client := c1;
         inflight := [{| call_id := id; call_init := init; call_callback := cb;
                         call_phase := Fetching attempt |}];
         wire := (w ++ [(id, Fetch (chat_url c1) init attempt CHAT_TIMEOUT)])%list;
         settled := done |}
      (drive c1 id net now (S iters) attempt) =
    {| client := fst (chat_settle c1 now cb r);
       inflight := [];
       wire := (w ++ map (pair id) tr)%list;
       settled := (done ++ [(id, snd (chat_settle c1 now cb r))])%list |}.
Proof.
  induction iters as [|iters IH]; intros attempt w done Hsum;
    rewrite request_loop_step, drive_step; unfold run.
  - destruct (run_attempt c1 attempt (net attempt)) as [data|e|ms] eqn:Hrun.
    + cbn [fold_left]. rewrite step_fetch_settled, Hrun. reflexivity.
    + cbn [fold_left]. rewrite step_fetch_settled, Hrun. reflexivity.
    + apply run_attempt_retry in Hrun as (Hne & _). lia.
  - destruct (run_attempt c1 attempt (net attempt)) as [data|e|ms] eqn:Hrun.
    + cbn [fold_left]. rewrite step_fetch_settled, Hrun. reflexivity.
    + cbn [fold_left]. rewrite step_fetch_settled, Hrun. reflexivity.
    + specialize (IH (S attempt)
                     (w ++ [(id, Fetch (chat_url c1) init attempt CHAT_TIMEOUT);
                            (id, Delay ms)])%list done ltac:(lia)).
      destruct (request_loop c1 (chat_url c1) init CHAT_TIMEOUT net (S iters) (S attempt))
        as [tr r].
      cbn [fold_left]. rewrite step_fetch_settled, Hrun.
      rewrite step_timer_fired by (apply Nat.leb_le; lia).
      unfold run in IH. rewrite <- !app_assoc in *. cbn [app] in *. rewrite IH.
      cbn [map]. reflexivity.
Qed.

(** A chat call with the event loop to itself ends as [sendChatMessage]
    says: same client, same transport effects, same settled promise. *)
Lemma run_alone_is_sendChatMessage c id message cb now_sent now_settled net :
  isRequestInProgress c = false ->
  (1 <= retryCount c)%nat ->
  let '(c', tr, outcome) := sendChatMessage c message cb now_sent now_settled net in
  run (fresh_page c)
      (Invoke id message cb now_sent ::
       drive (set_inProgress c true) id net now_settled (retryCount c) 1) =
    {| client := c'; inflight := []; wire := map (pair id) tr; settled := [(id, outcome)] |}.
Proof.
  intros Hflag Hpos. unfold sendChatMessage, request. rewrite Hflag.
  cbn [retryCount set_inProgress baseUrl].
  change (effective_timeout (Some CHAT_TIMEOUT)) with CHAT_TIMEOUT.
  destruct (retryCount c) as [|iters] eqn:Hn; [lia|].
  pose proof (drive_request_loop (set_inProgress c true) id
                (POST (chat_payload (set_inProgress c true) message now_sent)) cb net
                now_settled iters 1 [] []) as H.
  cbn [retryCount set_inProgress] in H. rewrite Hn in H. specialize (H eq_refl).
  unfold chat_url in H. cbn [baseUrl set_inProgress] in H.
  destruct (request_loop (set_inProgress c true) (baseUrl c +:+ "/api/chat")
              (POST (chat_payload (set_inProgress c true) message now_sent))
              CHAT_TIMEOUT net (S iters) 1) as [tr r].
  destruct (chat_settle (set_inProgress c true) now_settled cb r) as [c2 outcome].
  cbn [fst snd app] in H. rewrite <- H.
  unfold run at 1. cbn [fold_left]. f_equal.
  cbn [step fresh_page client isRequestInProgress set_inProgress].
  unfold enter_attempt, chat_url. cbn [client retryCount set_inProgress baseUrl].
  rewrite Hn. reflexivity.
Qed.

(** C2. On every page the event loop can reach: at most one chat call is
    outstanding, and the flag is set exactly then; a call that begins while
    one is outstanding is rejected at once, with no transport attempt and no
    change to the client; when the outstanding call is gone after an event,
    the flag is clear, however its request ended; and with the flag clear a
    new call is accepted and makes its first transport attempt. *)
Theorem at_most_one_chat_call_in_flight (c : AetherClient) (evs : list event) :
  let p := run (fresh_page c) evs in
  (length (inflight p) <= 1)%nat
  /\ (isRequestInProgress (client p) = true <-> inflight p <> [])
  /\ (forall id message cb now, isRequestInProgress (client p) = true ->
        let p' := step p (Invoke id message cb now) in
        wire p' = wire p /\ inflight p' = inflight p /\ client p' = client p
        /\ settled p' = (settled p ++
             [(id, Throw (ThrowError (new_Error SINGLE_FLIGHT_MESSAGE)))])%list)
  /\ (forall ev, inflight p <> [] -> inflight (step p ev) = [] ->
        isRequestInProgress (client (step p ev)) = false)
  /\ (forall k now r, isRequestInProgress (client (settle p k now r)) = false)
  /\ (forall id message cb now,
        isRequestInProgress (client p) = false -> (1 <= retryCount (client p))%nat ->
        let p' := step p (Invoke id message cb now) in
        wire p' = (wire p ++
          [(id, Fetch (chat_url (client p)) (POST (chat_payload (client p) message now))
                  1 CHAT_TIMEOUT)])%list
        /\ settled p' = settled p
        /\ map call_id (inflight p') = [id]
        /\ isRequestInProgress (client p') = true).
Proof.
  cbv zeta. pose proof (run_single_flight c evs) as Hinv.
  set (p := run (fresh_page c) evs) in *.
  split; [apply single_flight_length; exact Hinv|].
  split; [apply single_flight_flag; exact Hinv|].
  split; [|split; [|split]].
  - intros id message cb now Hflag. cbn [step]. rewrite Hflag. auto.
  - intros ev _ Hgone.
    pose proof (step_single_flight p ev Hinv) as Hnext.
    unfold single_flight in Hnext. rewrite Hgone in Hnext. exact Hnext.
  - intros k now r. reflexivity.
  - intros id message cb now Hflag Hretry.
    assert (Hempty : inflight p = []).
    { destruct (inflight p) eqn:Hin; [reflexivity|].
      apply single_flight_flag in Hinv. rewrite Hin in Hinv.
      destruct Hinv as [_ Hset]. rewrite Hset in Hflag; [discriminate|discriminate]. }
    cbn [step]. rewrite Hflag. unfold enter_attempt. cbn [client retryCount set_inProgress].
    apply Nat.leb_le in Hretry. rewrite Hretry. cbn. rewrite Hempty. auto.
Qed.

Lemma at_most_one_chat_call_in_flight_witness :
  let p := run (fresh_page client3) [Invoke 1 "first" None "t0"] in
  wire (step p (Invoke 2 "second" None "t1")) = wire p
  /\ isRequestInProgress (client (step p (FetchSettled 1 greeting "t2"))) = false.
Proof.
  cbv zeta.
  destruct (at_most_one_chat_call_in_flight client3 [Invoke 1 "first" None "t0"])
    as (_ & _ & Hreject & Hclear & _).
  split.
  - apply (Hreject 2%nat "second" None "t1"). reflexivity.
  - apply Hclear; [discriminate|reflexivity].
Defined.

End EventLoop.

(** ** The process session *)

Section ProcessSession.
Import Terminal TerminalObserve.

Example select_shell_defaults :
  select_shell {| platform := "win32"; env_SHELL := Some "/bin/zsh" |} = "powershell.exe"
  /\ select_shell {| platform := "darwin"; env_SHELL := None |} = "/bin/bash"
  /\ select_shell linux = "/bin/zsh".
Proof. repeat split; reflexivity. Qed.

(** [startClaude] on a fresh instance registers its listener after [ready]
    has been emitted: the process is spawned and nothing is written. *)
Example startClaude_on_idle_session :
  perform_all (constructor (Some "/work") "/home") [StartClaude linux (inr 7%nat) (Some fix_bug) None] =
    ({| projectPath := "/work"; ptyProcess := Some 7%nat; isRunning := true;
        onceReady := [(Some fix_bug, None)] |},
     [PtySpawn "/bin/zsh" "/work"; Emit EvReady]).
Proof. reflexivity. Qed.

Lemma write_state t data : fst (write t data) = t.
Proof. unfold write. destruct (ptyProcess t), (isRunning t); reflexivity. Qed.

Lemma resize_state t cols rows : fst (resize t cols rows) = t.
Proof. unfold resize. destruct (ptyProcess t), (isRunning t); reflexivity. Qed.

Lemma launchClaudeCode_state t task context : fst (launchClaudeCode t task context) = t.
Proof.
  unfold launchClaudeCode.
  pose proof (write_state t BANNER) as H1. destruct (write t BANNER) as [t1 e1].
  cbn [fst] in H1. subst t1.
  pose proof (write_state t (claudeCommand task context +:+ newline)) as H2.
  destruct (write t (claudeCommand task context +:+ newline)) as [t2 e2]. exact H2.
Qed.

Lemma run_listeners_state ls : forall t, fst (run_listeners t ls) = t.
Proof.
  induction ls as [|[task context] ls IH]; intros t; [reflexivity|].
  cbn [run_listeners].
  pose proof (launchClaudeCode_state t task context) as H1.
  destruct (launchClaudeCode t task context) as [t1 e1]. cbn [fst] in H1. subst t1.
  specialize (IH t). destruct (run_listeners t ls) as [t2 e2]. exact IH.
Qed.

Lemma emit_ready_state t :
  isRunning (fst (emit_ready t)) = isRunning t
  /\ ptyProcess (fst (emit_ready t)) = ptyProcess t.
Proof.
  unfold emit_ready.
  match goal with
  | |- context [run_listeners ?t0 ?ls] =>
      pose proof (run_listeners_state ls t0) as H; destruct (run_listeners t0 ls) as [t1 e1]
  end.
  cbn [fst] in *. subst t1. split; reflexivity.
Qed.

(** The running flag and the process handle after [startSession]. *)
Lemma startSession_state h spawned t :
  let t' := fst (startSession h spawned t) in
  if isRunning t then t' = t
  else match spawned with
       | inr pty => isRunning t' = true /\ ptyProcess t' = Some pty
       | inl _ => t' = t
       end.
Proof.
  cbv zeta. unfold startSession. destruct (isRunning t) eqn:Hrun; [reflexivity|].
  destruct spawned as [reason|pty]; [reflexivity|].
  match goal with
  | |- context [emit_ready ?t1] =>
      pose proof (emit_ready_state t1) as [Hr Hp]; destruct (emit_ready t1) as [t2 e2]
  end.
  cbn [fst isRunning ptyProcess] in *. auto.
Qed.

Lemma startClaude_state h spawned t task context :
  let t' := fst (startClaude h spawned t task context) in
  isRunning t' = isRunning (fst (startSession h spawned t))
  /\ ptyProcess t' = ptyProcess (fst (startSession h spawned t)).
Proof.
  cbv zeta. unfold startClaude. destruct (isRunning t) eqn:Hrun; cbn [negb].
  - rewrite launchClaudeCode_state. unfold startSession. rewrite Hrun. auto.
  - destruct (startSession h spawned t) as [t1 e1]. auto.
Qed.

Lemma startSession_keeps_process h spawned t :
  running_has_process t -> running_has_process (fst (startSession h spawned t)).
Proof.
  unfold running_has_process. intros Hinv.
  pose proof (startSession_state h spawned t) as H. cbv zeta in H.
  destruct (isRunning t) eqn:Hrun.
  - rewrite H. intros _. apply Hinv. reflexivity.
  - destruct spawned as [reason|pty].
    + rewrite H, Hrun. discriminate.
    + destruct H as [_ ->]. eauto.
Qed.

Lemma perform_keeps_process t op :
  running_has_process t -> running_has_process (fst (perform t op)).
Proof.
  intros Hinv.
  destruct op as [h spawned|data|cols rows|h spawned task context| | |data]; cbn [perform].
  - apply startSession_keeps_process. exact Hinv.
  - rewrite write_state. exact Hinv.
  - rewrite resize_state. exact Hinv.
  - pose proof (startSession_keeps_process h spawned t Hinv) as Hs.
    unfold running_has_process in *.
    destruct (startClaude_state h spawned t task context) as [-> ->]. exact Hs.
  - unfold running_has_process, kill in *.
    destruct (ptyProcess t) eqn:Hp; cbn [fst isRunning ptyProcess];
      [discriminate|rewrite Hp; exact Hinv].
  - unfold running_has_process, onExit in *.
    destruct (ptyProcess t) eqn:Hp; cbn [fst isRunning ptyProcess];
      [discriminate|rewrite Hp; exact Hinv].
  - unfold running_has_process, onData in *.
    destruct (ptyProcess t) eqn:Hp; cbn [fst]; rewrite Hp; exact Hinv.
Qed.

Lemma perform_all_keeps_process ops : forall t,
  running_has_process t -> running_has_process (fst (perform_all t ops)).
Proof.
  induction ops as [|op ops IH]; intros t Hinv; [exact Hinv|].
  cbn [perform_all]. pose proof (perform_keeps_process t op Hinv) as H1.
  destruct (perform t op) as [t1 e1]. cbn [fst] in H1.
  specialize (IH t1 H1). destruct (perform_all t1 ops) as [t2 e2]. exact IH.
Qed.

Lemma reachable_running_has_process t : reachable t -> running_has_process t.
Proof.
  intros (path & cwd & ops & <-). apply perform_all_keeps_process. intros Hrun. discriminate.
Qed.

Lemma string_app_cons (x : ascii) (a b : string) : String x a +:+ b = String x (a +:+ b).
Proof. reflexivity. Qed.

Lemma string_app_assoc (a b c : string) : (a +:+ b) +:+ c = a +:+ (b +:+ c).
Proof.
  induction a as [|x a IH]; [reflexivity|]. rewrite !string_app_cons, IH. reflexivity.
Qed.

Lemma string_app_empty (a : string) : a +:+ EmptyString = a.
Proof. induction a as [|x a IH]; [reflexivity|]. rewrite string_app_cons, IH. reflexivity. Qed.

Lemma claudeCommand_rule task context :
  claudeCommand task context = composition_rule task context.
Proof.
  unfold claudeCommand, composition_rule, context_flag.
  destruct task as [task|]; [destruct (present (priority task))|];
    destruct (present context);
    rewrite ?string_app_assoc, ?string_app_empty; reflexivity.
Qed.

(** A session is killed, or its process exits, and is started again. *)
Lemma stopped_session_runs_again :
  isRunning (fst (perform_all (constructor (Some "/work") "/home")
                    [StartSession linux (inr 1%nat); Kill])) = false
  /\ isRunning (fst (perform_all (constructor (Some "/work") "/home")
                       [StartSession linux (inr 1%nat); Kill;
                        StartSession linux (inr 2%nat)])) = true
  /\ isRunning (fst (perform_all (constructor (Some "/work") "/home")
                       [StartSession linux (inr 1%nat); ProcessExited])) = false
  /\ isRunning (fst (perform_all (constructor (Some "/work") "/home")
                       [StartSession linux (inr 1%nat); ProcessExited;
                        StartSession linux (inr 2%nat)])) = true.
Proof. repeat split; reflexivity. Qed.

(** C3, amended. On every instance, [kill()] and the exit of the process
    leave the session not running, and a session that is not running stays
    so under every operation that does not spawn a process successfully;
    but the state is not terminal: [startSession] with a successful spawn
    returns the same instance to running, on the new process. *)
Theorem not_running_until_started_again (t : ClaudeTerminal) :
  reachable t ->
  isRunning (fst (kill t)) = false
  /\ isRunning (fst (onExit t)) = false
  /\ (isRunning t = false ->
       (forall op, respawns op = false -> isRunning (fst (perform t op)) = false)
       /\ (forall h pty,
             isRunning (fst (startSession h (inr pty) t)) = true
             /\ ptyProcess (fst (startSession h (inr pty) t)) = Some pty)).
Proof.
  intros Hreach. pose proof (reachable_running_has_process t Hreach) as Hinv.
  unfold running_has_process in Hinv.
  assert (Hstop : forall t0, (isRunning t0 = true -> exists pty, ptyProcess t0 = Some pty) ->
            isRunning (fst (kill t0)) = false /\ isRunning (fst (onExit t0)) = false).
  { intros t0 H0. unfold kill, onExit. destruct (ptyProcess t0) as [pty|] eqn:Hp; cbn.
    - auto.
    - destruct (isRunning t0); [|auto]. destruct (H0 eq_refl) as [pty Hpty]. discriminate. }
  destruct (Hstop t Hinv) as [Hkill Hexit].
  split; [exact Hkill|]. split; [exact Hexit|].
  intros Hidle. split.
  - intros op Hop.
    destruct op as [h spawned|data|cols rows|h spawned task context| | |data]; cbn [perform].
    + pose proof (startSession_state h spawned t) as H. cbv zeta in H. rewrite Hidle in H.
      destruct spawned as [reason|pty]; [|discriminate]. rewrite H. exact Hidle.
    + rewrite write_state. exact Hidle.
    + rewrite resize_state. exact Hidle.
    + destruct (startClaude_state h spawned t task context) as [-> _].
      pose proof (startSession_state h spawned t) as H. cbv zeta in H. rewrite Hidle in H.
      destruct spawned as [reason|pty]; [|discriminate]. rewrite H. exact Hidle.
    + exact Hkill.
    + exact Hexit.
    + unfold onData. destruct (ptyProcess t); exact Hidle.
  - intros h pty. pose proof (startSession_state h (inr pty) t) as H. cbv zeta in H.
    rewrite Hidle in H. exact H.
Qed.

Lemma not_running_until_started_again_witness :
  let t := fst (perform_all (constructor (Some "/work") "/home") [StartSession linux (inr 1%nat); Kill]) in
  isRunning (fst (perform t (Write "ls"))) = false
  /\ isRunning (fst (startSession linux (inr 2%nat) t)) = true.
Proof.
  cbv zeta.
  destruct (not_running_until_started_again
              (fst (perform_all (constructor (Some "/work") "/home") [StartSession linux (inr 1%nat); Kill])))
    as (_ & _ & H).
  - exists (Some "/work"), "/home", [StartSession linux (inr 1%nat); Kill]. reflexivity.
  - destruct (H eq_refl) as [Hstay Hstart]. split.
    + apply Hstay. reflexivity.
    + apply (Hstart linux 2%nat).
Defined.

(** C9. The command for task [{title: "Fix bug", priority: "high"}] and
    context ["urgent"] is the invocation name followed by the three context
    flags in order; in general the command is the one the composition rule
    gives: no priority, no second flag; no task, no first two flags; no
    context data, no last flag. *)
Theorem command_composition :
  claudeCommand (Some fix_bug) (Some "urgent")
    = "claude --context " +:+ dquote +:+ "Current Task: Fix bug" +:+ dquote
        +:+ " --context " +:+ dquote +:+ "Priority: high" +:+ dquote
        +:+ " --context " +:+ dquote +:+ "urgent" +:+ dquote
  /\ (forall task context, claudeCommand task context = composition_rule task context)
  /\ (forall ttl context,
        claudeCommand (Some {| title := ttl; priority := None |}) context
          = "claude" +:+ context_flag ("Current Task: " +:+ interpolate ttl)
              +:+ (if present context then context_flag (interpolate context) else EmptyString))
  /\ (forall context,
        claudeCommand None context
          = "claude" +:+ (if present context then context_flag (interpolate context)
                          else EmptyString))
  /\ (forall task, claudeCommand task None = composition_rule task None)
  /\ claudeCommand None None = "claude".
Proof.
  split; [reflexivity|]. split; [exact claudeCommand_rule|]. split; [|split; [|split]].
  - intros ttl context. rewrite claudeCommand_rule. unfold composition_rule.
    cbn [present priority title]. rewrite string_app_empty. reflexivity.
  - intros context. rewrite claudeCommand_rule. reflexivity.
  - intros task. apply claudeCommand_rule.
  - reflexivity.
Qed.

(** On a running session the banner and then the command line are written
    to the process, each ending in a newline. *)
Example launchClaudeCode_writes :
  snd (launchClaudeCode
         {| projectPath := "/work"; ptyProcess := Some 7%nat; isRunning := true;
            onceReady := [] |} (Some fix_bug) (Some "urgent"))
    = [PtyWrite 7 BANNER;
       PtyWrite 7 (claudeCommand (Some fix_bug) (Some "urgent") +:+ newline)].
Proof. reflexivity. Qed.

(** C10. While the session is not running, [write] and [resize] do
    nothing: no effect at all, the instance unchanged, so that whatever
    happens next happens as if the call had not been made. And a running
    session, in every state an instance can reach, holds a process. *)
Theorem write_and_resize_need_a_running_session (t : ClaudeTerminal) :
  (isRunning t = false ->
     forall data cols rows,
       write t data = (t, [])
       /\ resize t cols rows = (t, [])
       /\ (forall ops, perform_all (fst (write t data)) ops = perform_all t ops)
       /\ (forall ops, perform_all (fst (resize t cols rows)) ops = perform_all t ops))
  /\ (reachable t -> isRunning t = true -> exists pty, ptyProcess t = Some pty).
Proof.
  split.
  - intros Hidle data cols rows.
    split; [|split; [|split]].
    + unfold write. rewrite Hidle. destruct (ptyProcess t); reflexivity.
    + unfold resize. rewrite Hidle. destruct (ptyProcess t); reflexivity.
    + intros ops. rewrite write_state. reflexivity.
    + intros ops. rewrite resize_state. reflexivity.
  - intros Hreach. apply reachable_running_has_process. exact Hreach.
Qed.

Lemma write_and_resize_need_a_running_session_witness :
  let t := fst (perform_all (constructor (Some "/work") "/home") [StartSession linux (inr 1%nat); ProcessExited]) in
  write t "ls" = (t, [])
  /\ (exists pty,
        ptyProcess (fst (perform_all (constructor (Some "/work") "/home") [StartSession linux (inr 1%nat)]))
          = Some pty).
Proof.
  cbv zeta. split.
  - destruct (write_and_resize_need_a_running_session
                (fst (perform_all (constructor (Some "/work") "/home")
                        [StartSession linux (inr 1%nat); ProcessExited]))) as [Hidle _].
    apply (Hidle eq_refl "ls" 80 24).
  - destruct (write_and_resize_need_a_running_session
                (fst (perform_all (constructor (Some "/work") "/home") [StartSession linux (inr 1%nat)])))
      as [_ Hrun].
    apply Hrun; [|reflexivity].
    exists (Some "/work"), "/home", [StartSession linux (inr 1%nat)]. reflexivity.
Defined.

End ProcessSession.

(** ** More on the request engine *)

Section RequestMore.
Import Js Aether Observe ObserveMore Sample.

(** Where a schedule holds an attempt: at an even place, numbered after
    it, with the url, options and timeout of the schedule. *)
Lemma schedule_fetch_inv c url init timeout n : forall from i url' init' a timeout',
  schedule c url init timeout from n !! i = Some (Fetch url' init' a timeout') ->
  url' = url /\ init' = init /\ timeout' = timeout
  /\ (from <= a < from + n)%nat /\ i = (2 * (a - from))%nat.
Proof.
  intros from i url' init' a timeout' Hlook.
  destruct n as [|n].
  { discriminate. }
  assert (Hlen : (i < 2 * S n - 1)%nat).
  { apply lookup_lt_Some in Hlook. rewrite schedule_length in Hlook by lia. exact Hlook. }
  destruct (Nat.Even_or_Odd i) as [[j ->]|[j ->]].
  - rewrite schedule_fetch_at in Hlook by lia. injection Hlook as <- <- <- <-.
    repeat split; lia.
  - rewrite schedule_delay_at in Hlook by lia. discriminate.
Qed.

(** Every trace of [request] is a schedule from attempt 1, no longer than
    [retryCount] allows. *)
Lemma request_is_schedule c endpoint init customTimeout net :
  exists m, (m <= retryCount c)%nat /\ ((1 <= retryCount c)%nat -> (1 <= m)%nat) /\
    fst (request c endpoint init customTimeout net)
      = schedule c (baseUrl c +:+ endpoint) init (effective_timeout customTimeout) 1 m.
Proof.
  destruct (request_cases c endpoint init customTimeout net)
    as [(H0 & ->)|[(_ & _ & e & _ & ->)|[(s & data & Hs & _ & _ & ->)|(s & Hs & _ & _ & ->)]]];
    cbn [fst].
  - exists 0%nat. split; [lia|]. split; [lia|reflexivity].
  - exists (retryCount c). split; [lia|]. split; [lia|reflexivity].
  - exists s. split; [lia|]. split; [lia|reflexivity].
  - exists s. split; [lia|]. split; [lia|reflexivity].
Qed.

Lemma request_fetch_shape c endpoint init customTimeout net i url' init' a timeout' :
  fst (request c endpoint init customTimeout net) !! i = Some (Fetch url' init' a timeout') ->
  url' = baseUrl c +:+ endpoint /\ init' = init
  /\ timeout' = effective_timeout customTimeout
  /\ (1 <= a <= retryCount c)%nat /\ i = (2 * (a - 1))%nat.
Proof.
  destruct (request_is_schedule c endpoint init customTimeout net) as (m & Hm & _ & ->).
  intros Hlook. apply schedule_fetch_inv in Hlook as (-> & -> & -> & Ha & ->).
  repeat split; lia.
Qed.

Lemma total_delay_schedule c url init timeout n : forall from,
  2 * total_delay (schedule c url init timeout from (S n))
    = retryDelay c * Z.of_nat n * (2 * Z.of_nat from + Z.of_nat n - 1).
Proof.
  unfold total_delay. induction n as [|n IH]; intros from.
  - cbn. lia.
  - rewrite delays_schedule. cbn [seq map foldr].
    specialize (IH (S from)). rewrite delays_schedule in IH. nia.
Qed.

(** The trace while the attempts fail plainly: attempt [k], its wait,
    attempt [k + 1]. *)
Lemma retry_after_plain_failures c endpoint init customTimeout net k :
  (1 <= k < retryCount c)%nat ->
  (forall j, (1 <= j <= k)%nat -> fails_plainly (net j) = true) ->
  let trace := fst (request c endpoint init customTimeout net) in
  let url := baseUrl c +:+ endpoint in
  let timeout := effective_timeout customTimeout in
  trace !! (2 * k - 2)%nat = Some (Fetch url init k timeout)
  /\ trace !! (2 * k - 1)%nat = Some (Delay (retryDelay c * Z.of_nat k))
  /\ trace !! (2 * k)%nat = Some (Fetch url init (S k) timeout).
Proof.
  intros Hk Hfail. cbv zeta.
  assert (Hshape : exists m, (k < m)%nat /\
            fst (request c endpoint init customTimeout net)
              = schedule c (baseUrl c +:+ endpoint) init (effective_timeout customTimeout) 1 m).
  { destruct (request_cases c endpoint init customTimeout net)
      as [(H0 & _)|[(_ & _ & e & _ & ->)|[(s & data & Hs & _ & Hok & ->)|(s & Hs & _ & Ha & ->)]]].
    - lia.
    - exists (retryCount c). split; [lia|reflexivity].
    - exists s. split; [|reflexivity].
      destruct (Nat.lt_ge_cases k s) as [|Hle]; [assumption|].
      specialize (Hfail s ltac:(lia)). apply fails_plainly_fails in Hfail as [Hf _].
      unfold succeeds in Hf. rewrite Hok in Hf. discriminate.
    - exists s. split; [|reflexivity].
      destruct (Nat.lt_ge_cases k s) as [|Hle]; [assumption|].
      specialize (Hfail s ltac:(lia)). apply fails_plainly_fails in Hfail as [_ Hf].
      congruence. }
  destruct Hshape as (m & Hm & ->). split; [|split].
  - replace (2 * k - 2)%nat with (2 * (k - 1))%nat by lia.
    rewrite schedule_fetch_at by lia. do 2 f_equal. lia.
  - replace (2 * k - 1)%nat with (2 * (k - 1) + 1)%nat by lia.
    rewrite schedule_delay_at by lia. do 3 f_equal. lia.
  - rewrite schedule_fetch_at by lia. reflexivity.
Qed.

(** [request] throws in two cases only. Either an attempt was aborted by
    its timer, every attempt before it having failed plainly: that attempt
    is the last one made and the [TypeError] of the assignment to the
    abort error's [message] is thrown. Or every attempt failed plainly:
    exactly [retryCount] attempts were made and the error thrown is
    "Connection failed: " with the message of the last failure. *)
Theorem request_throws_on_a_timeout_or_exhaustion (c : AetherClient) (endpoint : string)
    (init : request_init) (customTimeout : option Z) (net : nat -> fetch_outcome)
    (t : thrown) :
  snd (request c endpoint init customTimeout net) = Throw t ->
  (exists s, (1 <= s <= retryCount c)%nat
     /\ aborted (net s) = true
     /\ (forall j, (1 <= j < s)%nat -> fails_plainly (net j) = true)
     /\ fetches (fst (request c endpoint init customTimeout net)) = s
     /\ t = ThrowError (new_TypeError READONLY_MESSAGE))
  \/ ((1 <= retryCount c)%nat
      /\ (forall k, (1 <= k <= retryCount c)%nat -> fails_plainly (net k) = true)
      /\ fetches (fst (request c endpoint init customTimeout net)) = retryCount c
      /\ exists e, failure (net (retryCount c)) = Some e
           /\ t = ThrowError (new_Error ("Connection failed: " +:+ message e))).
Proof.
  destruct (request_cases c endpoint init customTimeout net)
    as [(_ & ->)|[(Hpos & Hfail & e & He & ->)|[(s & data & _ & _ & _ & ->)|(s & Hs & Hfail & Ha & ->)]]];
    cbn [fst snd]; intros [= <-].
  - right. split; [exact Hpos|]. split; [exact Hfail|].
    split; [apply fetches_schedule|eauto].
  - left. exists s. split; [exact Hs|]. split; [exact Ha|]. split; [exact Hfail|].
    split; [apply fetches_schedule|reflexivity].
Qed.

Lemma request_throws_on_a_timeout_or_exhaustion_witness :
  (exists s, (1 <= s <= 3)%nat /\ aborted (refused_then_timed_out s) = true
     /\ fetches (fst (request client3 "/stats" no_options None refused_then_timed_out)) = s)
  \/ fetches (fst (request client3 "/stats" no_options None refused_then_timed_out)) = 3%nat.
Proof.
  destruct (request_throws_on_a_timeout_or_exhaustion client3 "/stats" no_options None
              refused_then_timed_out (ThrowError (new_TypeError READONLY_MESSAGE)))
    as [(s & Hs & Ha & _ & Hn & _)|(_ & _ & Hn & _)].
  - reflexivity.
  - left. exists s. split; [exact Hs|]. split; [exact Ha|exact Hn].
  - right. exact Hn.
Defined.

(** What [request] returns is the body decoded by the first attempt that
    succeeded, that attempt being the last one made; the one other case is
    a client whose [retryCount] is 0, which gets [undefined] without any
    attempt. *)
Theorem request_returns_first_success (c : AetherClient) (endpoint : string)
    (init : request_init) (customTimeout : option Z) (net : nat -> fetch_outcome)
    (data : value) :
  snd (request c endpoint init customTimeout net) = Return data ->
  (retryCount c = 0%nat /\ data = VUndefined
   /\ fst (request c endpoint init customTimeout net) = [])
  \/ (exists s, (1 <= s <= retryCount c)%nat
        /\ try_block (net s) = inr data
        /\ (forall j, (1 <= j < s)%nat -> succeeds (net j) = false)
        /\ fetches (fst (request c endpoint init customTimeout net)) = s).
Proof.
  destruct (request_cases c endpoint init customTimeout net)
    as [(H0 & ->)|[(_ & _ & e & _ & ->)|[(s & data' & Hs & Hfail & Hok & ->)|(s & _ & _ & _ & ->)]]];
    cbn [fst snd]; intros [= <-].
  - left. auto.
  - right. exists s. split; [exact Hs|]. split; [exact Hok|]. split.
    + intros j Hj. apply fails_plainly_fails. apply Hfail. exact Hj.
    + apply fetches_schedule.
Qed.

Lemma request_returns_first_success_witness :
  (retryCount client3 = 0%nat /\ ok_status = VUndefined
   /\ fst (request client3 "/health" no_options None third_time_lucky) = [])
  \/ (exists s, (1 <= s <= retryCount client3)%nat
        /\ try_block (third_time_lucky s) = inr ok_status
        /\ (forall j, (1 <= j < s)%nat -> succeeds (third_time_lucky j) = false)
        /\ fetches (fst (request client3 "/health" no_options None third_time_lucky)) = s).
Proof.
  apply (request_returns_first_success client3 "/health" no_options None third_time_lucky
           ok_status).
  reflexivity.
Defined.

(** All the attempts of one call are alike: the same url under the
    client's base, the same options, the same timeout; attempt [a] is the
    effect at place [2 * (a - 1)], and no attempt is numbered above
    [retryCount]. *)
Theorem attempts_of_a_call_are_alike (c : AetherClient) (endpoint : string)
    (init : request_init) (customTimeout : option Z) (net : nat -> fetch_outcome)
    (i : nat) (url' : string) (init' : request_init) (a : nat) (timeout' : Z) :
  fst (request c endpoint init customTimeout net) !! i = Some (Fetch url' init' a timeout') ->
  url' = baseUrl c +:+ endpoint /\ init' = init
  /\ timeout' = effective_timeout customTimeout
  /\ (1 <= a <= retryCount c)%nat /\ i = (2 * (a - 1))%nat.
Proof. apply request_fetch_shape. Qed.

Lemma attempts_of_a_call_are_alike_witness :
  "http://localhost:8000/health" = baseUrl client3 +:+ "/health" /\ no_options = no_options
  /\ 30000 = effective_timeout (Some 0)
  /\ (1 <= 3 <= retryCount client3)%nat /\ 4%nat = (2 * (3 - 1))%nat.
Proof.
  apply (attempts_of_a_call_are_alike client3 "/health" no_options (Some 0)
           third_time_lucky 4 "http://localhost:8000/health" no_options 3 30000).
  reflexivity.
Defined.

(** The waits of a call add up to [retryDelay * m * (m - 1) / 2], [m]
    being the number of attempts it made, whatever the transport did. A
    client whose [retryCount] is 0 makes no attempt and waits for nothing;
    any other call makes at least one attempt, and exactly one attempt
    more than it waits. *)
Theorem total_backoff (c : AetherClient) (endpoint : string) (init : request_init)
    (customTimeout : option Z) (net : nat -> fetch_outcome) :
  let trace := fst (request c endpoint init customTimeout net) in
  let m := Z.of_nat (fetches trace) in
  2 * total_delay trace = retryDelay c * m * (m - 1)
  /\ (retryCount c = 0%nat -> fetches trace = 0%nat /\ delays trace = [])
  /\ ((1 <= retryCount c)%nat -> fetches trace = S (length (delays trace))).
Proof.
  cbv zeta.
  destruct (request_is_schedule c endpoint init customTimeout net) as (m & Hm & Hpos & ->).
  rewrite fetches_schedule. destruct m as [|m].
  - split; [cbn; lia|]. split; [auto|]. intros H. specialize (Hpos H). lia.
  - rewrite total_delay_schedule. split; [lia|]. split; [lia|].
    intros _. rewrite delays_schedule, length_map, length_seq. reflexivity.
Qed.

Lemma total_backoff_witness :
  fetches (fst (request client3 "/stats" no_options None (always refused)))
    = S (length (delays (fst (request client3 "/stats" no_options None (always refused)))))
  /\ delays (fst (request (MkClient AETHER_BASE_URL 0 1000 "session_1_abc" false) "/stats"
                      no_options None (always refused))) = [].
Proof.
  split.
  - destruct (total_backoff client3 "/stats" no_options None (always refused))
      as (_ & _ & Hpos).
    apply Hpos. simpl. lia.
  - destruct (total_backoff (MkClient AETHER_BASE_URL 0 1000 "session_1_abc" false) "/stats"
                no_options None (always refused)) as (_ & Hzero & _).
    apply Hzero. reflexivity.
Defined.

(** [request] never makes more than [retryCount] attempts. When every
    attempt fails plainly (network failure, non-success status, body that
    does not decode) it makes exactly [retryCount]; when an attempt
    succeeds after plain failures only, it returns that attempt's decoded
    body and makes no further attempt. *)
Theorem plain_failures_use_every_attempt (c : AetherClient) (endpoint : string)
    (init : request_init) (customTimeout : option Z) (net : nat -> fetch_outcome) :
  let outcome := request c endpoint init customTimeout net in
  (fetches (fst outcome) <= retryCount c)%nat
  /\ ((forall k, (1 <= k <= retryCount c)%nat -> fails_plainly (net k) = true) ->
      fetches (fst outcome) = retryCount c)
  /\ (forall s data,
        (1 <= s <= retryCount c)%nat ->
        (forall j, (1 <= j < s)%nat -> fails_plainly (net j) = true) ->
        try_block (net s) = inr data ->
        snd outcome = Return data
        /\ fetches (fst outcome) = s
        /\ last (fst outcome)
             = Some (Fetch (baseUrl c +:+ endpoint) init s (effective_timeout customTimeout))).
Proof.
  cbv zeta. split; [|split].
  - destruct (request_is_schedule c endpoint init customTimeout net) as (m & Hm & _ & ->).
    rewrite fetches_schedule. exact Hm.
  - intros Hfail. destruct (retryCount c) as [|n] eqn:Hn.
    + unfold request. rewrite Hn. reflexivity.
    + destruct (request_all_fail c endpoint init customTimeout net) as (e & _ & Hreq).
      { lia. } { rewrite Hn. exact Hfail. }
      rewrite Hreq. cbn [fst]. rewrite fetches_schedule. exact Hn.
  - intros s data Hs Hfail Hok.
    rewrite (request_first_success c endpoint init customTimeout net s data Hs Hfail Hok).
    cbn [fst snd]. split; [reflexivity|]. split; [apply fetches_schedule|].
    rewrite schedule_last by lia. do 2 f_equal. lia.
Qed.

Lemma plain_failures_use_every_attempt_witness :
  fetches (fst (request client3 "/health" no_options None (always unavailable))) = 3%nat
  /\ snd (request client3 "/health" no_options None third_time_lucky) = Return ok_status
  /\ fetches (fst (request client3 "/health" no_options None third_time_lucky)) = 3%nat.
Proof.
  split.
  - apply (plain_failures_use_every_attempt client3 "/health" no_options None
             (always unavailable)).
    intros k _. reflexivity.
  - destruct (plain_failures_use_every_attempt client3 "/health" no_options None
                third_time_lucky) as (_ & _ & H).
    destruct (H 3%nat ok_status) as (Hret & Hcount & _).
    + simpl. lia.
    + intros j Hj. destruct j as [|[|[|j]]]; [lia|reflexivity|reflexivity|lia].
    + reflexivity.
    + split; assumption.
Defined.

(** After an attempt [k] that fails plainly and is not the last one
    allowed, the attempts before it having failed plainly too, [request]
    waits [retryDelay * k] and then makes attempt [k + 1]; no trace ends
    with a wait; with the defaults (three attempts, base 1000ms) the waits
    of a call whose attempts all fail plainly are 1000ms and 2000ms. *)
Theorem backoff_after_plain_failures (c : AetherClient) (endpoint : string)
    (init : request_init) (customTimeout : option Z) (net : nat -> fetch_outcome) :
  let trace := fst (request c endpoint init customTimeout net) in
  let url := baseUrl c +:+ endpoint in
  let timeout := effective_timeout customTimeout in
  (forall k, (1 <= k < retryCount c)%nat ->
     (forall j, (1 <= j <= k)%nat -> fails_plainly (net j) = true) ->
     trace !! (2 * k - 2)%nat = Some (Fetch url init k timeout)
     /\ trace !! (2 * k - 1)%nat = Some (Delay (retryDelay c * Z.of_nat k))
     /\ trace !! (2 * k)%nat = Some (Fetch url init (S k) timeout))
  /\ (forall ms, last trace <> Some (Delay ms))
  /\ (retryCount c = 3%nat -> retryDelay c = 1000 ->
      (forall j, (1 <= j <= 3)%nat -> fails_plainly (net j) = true) ->
      delays trace = [1000; 2000]).
Proof.
  cbv zeta. split; [|split].
  - intros k Hk Hfail. apply retry_after_plain_failures; assumption.
  - intros ms.
    destruct (request_is_schedule c endpoint init customTimeout net) as (m & _ & _ & ->).
    destruct m as [|m]; [discriminate|]. rewrite schedule_last by lia. discriminate.
  - intros H3 Hd Hthree.
    destruct (request_all_fail c endpoint init customTimeout net) as (e & _ & ->).
    { lia. } { rewrite H3. exact Hthree. }
    cbn [fst]. rewrite H3, delays_schedule, Hd. reflexivity.
Qed.

Lemma backoff_after_plain_failures_witness :
  fst (request client3 "/stats" no_options None (always unavailable)) !! 3%nat
    = Some (Delay 2000)
  /\ delays (fst (request client3 "/stats" no_options None (always unavailable)))
       = [1000; 2000].
Proof.
  destruct (backoff_after_plain_failures client3 "/stats" no_options None (always unavailable))
    as (Hwait & _ & Hdefault).
  split.
  - destruct (Hwait 2%nat) as (_ & Hdelay & _).
    + simpl. lia.
    + intros j _. reflexivity.
    + exact Hdelay.
  - apply Hdefault; [reflexivity|reflexivity|intros j _; reflexivity].
Defined.

(** When every attempt fails plainly, [request] throws one error, and its
    message is "Connection failed: " followed by the message of the last
    failure: the message of the network error, or for a non-success
    status the text "HTTP <status>: <statusText>". *)
Theorem connection_failed_after_exhaustion (c : AetherClient) (endpoint : string)
    (init : request_init) (customTimeout : option Z) (net : nat -> fetch_outcome) :
  (1 <= retryCount c)%nat ->
  (forall k, (1 <= k <= retryCount c)%nat -> fails_plainly (net k) = true) ->
  let result := snd (request c endpoint init customTimeout net) in
  (exists e, failure (net (retryCount c)) = Some e /\
     result = Throw (ThrowError (new_Error ("Connection failed: " +:+ message e))))
  /\ (forall e, net (retryCount c) = Rejects e ->
      result = Throw (ThrowError (new_Error ("Connection failed: " +:+ message e))))
  /\ (forall status statusText json,
      net (retryCount c) = Responds false status statusText json ->
      result = Throw (ThrowError (new_Error
        ("Connection failed: HTTP " +:+ pretty status +:+ ": " +:+ statusText)))).
Proof.
  intros Hpos Hfail. cbv zeta.
  destruct (request_all_fail c endpoint init customTimeout net Hpos Hfail) as (e & He & ->).
  cbn [snd]. unfold connection_failed. split; [|split].
  - exists e. split; [exact He|reflexivity].
  - intros e' Hlast. rewrite Hlast in He. injection He as <-. reflexivity.
  - intros status statusText json Hlast. rewrite Hlast in He. injection He as <-.
    reflexivity.
Qed.

Lemma connection_failed_after_exhaustion_witness :
  snd (request client3 "/health" no_options None (always refused))
    = Throw (ThrowError (new_Error "Connection failed: Failed to fetch"))
  /\ snd (request client3 "/health" no_options None (always not_found))
    = Throw (ThrowError (new_Error "Connection failed: HTTP 404: Not Found")).
Proof.
  split.
  - destruct (connection_failed_after_exhaustion client3 "/health" no_options None
                (always refused)) as (_ & Hreject & _).
    + simpl. lia.
    + intros k _. reflexivity.
    + apply (Hreject {| name := "TypeError"; message := "Failed to fetch" |}). reflexivity.
  - destruct (connection_failed_after_exhaustion client3 "/health" no_options None
                (always not_found)) as (_ & _ & Hstatus).
    + simpl. lia.
    + intros k _. reflexivity.
    + apply (Hstatus 404 "Not Found" (inr VNull)). reflexivity.
Defined.

(** A response flagged as non-success is retried, whatever its status:
    when it answers an attempt [k] that is not the last one allowed, the
    attempts before having failed plainly, the wait [retryDelay * k] and
    attempt [k + 1] follow; and putting such a response, with any status,
    in place of an attempt that failed plainly leaves the attempts and
    waits of the whole call as they were, as for a network failure. *)
Theorem status_is_retried_like_a_network_failure (c : AetherClient) (endpoint : string)
    (init : request_init) (customTimeout : option Z) (net : nat -> fetch_outcome)
    (k : nat) (status : Z) (statusText : string) (json : Js.error + value) :
  let rejected := Responds false status statusText json in
  fails_plainly rejected = true
  /\ ((1 <= k < retryCount c)%nat ->
      (forall j, (1 <= j < k)%nat -> fails_plainly (net j) = true) ->
      net k = rejected ->
      let trace := fst (request c endpoint init customTimeout net) in
      trace !! (2 * k - 2)%nat
        = Some (Fetch (baseUrl c +:+ endpoint) init k (effective_timeout customTimeout))
      /\ trace !! (2 * k - 1)%nat = Some (Delay (retryDelay c * Z.of_nat k))
      /\ trace !! (2 * k)%nat
          = Some (Fetch (baseUrl c +:+ endpoint) init (S k) (effective_timeout customTimeout)))
  /\ (fails_plainly (net k) = true ->
      fst (request c endpoint init customTimeout (override net k rejected))
        = fst (request c endpoint init customTimeout net)).
Proof.
  cbv zeta.
  assert (Hplain : fails_plainly (Responds false status statusText json) = true)
    by reflexivity.
  split; [exact Hplain|]. split.
  - intros Hk Hbefore Hnet. apply retry_after_plain_failures; [exact Hk|].
    intros j Hj. destruct (Nat.eq_dec j k) as [->|Hne].
    + rewrite Hnet. exact Hplain.
    + apply Hbefore. lia.
  - intros Hfail. unfold request. apply request_loop_trace_pattern. intros j.
    unfold override. destruct (Nat.eqb j k) eqn:Hjk; [|auto].
    apply Nat.eqb_eq in Hjk. subst j.
    apply fails_plainly_fails in Hfail as [-> ->]. auto.
Qed.

Lemma status_is_retried_like_a_network_failure_witness :
  fst (request client3 "/edicts" no_options None
         (override (always refused) 2 (Responds false 404 "Not Found" (inr VNull))))
    !! 3%nat = Some (Delay 2000)
  /\ fst (request client3 "/edicts" no_options None
            (override (always refused) 2 (Responds false 404 "Not Found" (inr VNull))))
     = fst (request client3 "/edicts" no_options None (always refused)).
Proof.
  split.
  - destruct (status_is_retried_like_a_network_failure client3 "/edicts" no_options None
                (override (always refused) 2 (Responds false 404 "Not Found" (inr VNull)))
                2 404 "Not Found" (inr VNull)) as (_ & Hretry & _).
    destruct Hretry as (_ & Hdelay & _).
    + simpl. lia.
    + intros j Hj. assert (j = 1%nat) as -> by lia. reflexivity.
    + reflexivity.
    + exact Hdelay.
  - destruct (status_is_retried_like_a_network_failure client3 "/edicts" no_options None
                (always refused) 2 404 "Not Found" (inr VNull)) as (_ & _ & Hsame).
    apply Hsame. reflexivity.
Defined.

End RequestMore.

(** ** More on the client's operations *)

Section ClientMore.
Import Js Aether AetherOps Observe ObserveMore Sample.

Lemma request_no_retries c endpoint init customTimeout net :
  retryCount c = 0%nat ->
  request c endpoint init customTimeout net = ([], Return VUndefined).
Proof. intros H0. unfold request. rewrite H0. reflexivity. Qed.

(** A client whose [retryCount] is 0 never touches the network: [request]
    and with it every catalogued operation and [getChatHistory] resolve to
    [undefined]; [sendChatMessage] and [testConnection] fail on reading a
    property of [undefined] and report that, the chat flag being clear
    again afterwards. *)
Theorem no_retries_no_network (c : AetherClient) (net : nat -> fetch_outcome)
    (op : plain_operation) (message : string) (onStreamUpdate : option stream_callback)
    (now_sent now_settled : string) :
  retryCount c = 0%nat ->
  call op c net = ([], Return VUndefined)
  /\ getChatHistory c net = ([], Return VUndefined)
  /\ (exists msg,
        testConnection c net =
          ([], Return {| connected := false; status := None; version := None;
                         report_error := Some (VStr msg);
                         report_sessionId := sessionId c |}))
  /\ (isRequestInProgress c = false ->
      exists msg,
        sendChatMessage c message onStreamUpdate now_sent now_settled net =
          (c, [], Return (chat_failure c now_settled msg))).
Proof.
  intros H0. split; [|split; [|split]].
  - destruct op; unfold call, getHealth, getEdicts, getStats, executeEdict, getCronJobs,
      getConsciousness, queryConsciousness, getLogs, getWekanStatus, getFoundryCards,
      getFoundryStats, getFoundryReports; apply request_no_retries; exact H0.
  - unfold getChatHistory. rewrite request_no_retries by exact H0. reflexivity.
  - unfold testConnection, getHealth. rewrite request_no_retries by exact H0.
    eexists. reflexivity.
  - intros Hflag. unfold sendChatMessage. rewrite Hflag.
    rewrite request_no_retries by exact H0.
    destruct c as [base n d sid flag]. cbn in Hflag. subst flag.
    destruct onStreamUpdate; eexists; reflexivity.
Qed.

Lemma no_retries_no_network_witness :
  call GetStats (MkClient AETHER_BASE_URL 0 1000 "session_1_abc" false) (always healthy)
    = ([], Return VUndefined).
Proof.
  apply (no_retries_no_network (MkClient AETHER_BASE_URL 0 1000 "session_1_abc" false)
           (always healthy) GetStats "hi" None "t0" "t1").
  reflexivity.
Defined.

(** Each catalogued operation is one call of [request] with the ordinary
    timeout: every attempt goes to a url under the client's base with
    30000ms to answer, and only [executeEdict] and [queryConsciousness]
    send a body, by POST. *)
Theorem catalogue_uses_the_ordinary_timeout (op : plain_operation) (c : AetherClient)
    (net : nat -> fetch_outcome) (i : nat) (url : string) (init : request_init)
    (a : nat) (timeout : Z) :
  fst (call op c net) !! i = Some (Fetch url init a timeout) ->
  timeout = REQUEST_TIMEOUT
  /\ (exists path, url = baseUrl c +:+ path)
  /\ (1 <= a <= retryCount c)%nat
  /\ match op with
     | ExecuteEdict _ _ | QueryConsciousness _ _ =>
         method init = Some "POST" /\ body init <> None
     | _ => init = no_options
     end.
Proof.
  intros Hlook.
  destruct op; unfold call, getHealth, getEdicts, getStats, executeEdict, getCronJobs,
    getConsciousness, queryConsciousness, getLogs, getWekanStatus, getFoundryCards,
    getFoundryStats, getFoundryReports in Hlook;
    apply request_fetch_shape in Hlook as (-> & -> & -> & Ha & _);
    (split; [reflexivity|split; [eexists; reflexivity|split; [exact Ha|]]]);
    first [reflexivity | split; [reflexivity|discriminate]].
Qed.

Lemma catalogue_uses_the_ordinary_timeout_witness :
  30000 = REQUEST_TIMEOUT
  /\ (exists path, "http://localhost:8000/logs?limit=50" = baseUrl client3 +:+ path)
  /\ (1 <= 2 <= retryCount client3)%nat
  /\ no_options = no_options.
Proof.
  apply (catalogue_uses_the_ordinary_timeout (GetLogs None) client3 (always refused) 2
           "http://localhost:8000/logs?limit=50" no_options 2 30000).
  reflexivity.
Defined.

(** Every attempt of a chat call posts the same payload to [/api/chat]
    with the long timeout: the message, the client's session id and the
    timestamp taken when the call was made, retries included. *)
Theorem chat_attempts_carry_the_session (c : AetherClient) (message : string)
    (onStreamUpdate : option stream_callback) (now_sent now_settled : string)
    (net : nat -> fetch_outcome) (i : nat) (url : string) (init : request_init)
    (a : nat) (timeout : Z) :
  snd (fst (sendChatMessage c message onStreamUpdate now_sent now_settled net)) !! i
    = Some (Fetch url init a timeout) ->
  url = baseUrl c +:+ "/api/chat"
  /\ timeout = CHAT_TIMEOUT
  /\ method init = Some "POST"
  /\ body init = Some (VObj [("message", VStr message); ("session_id", VStr (sessionId c));
                             ("timestamp", VStr now_sent)])
  /\ isRequestInProgress c = false.
Proof.
  unfold sendChatMessage. destruct (isRequestInProgress c) eqn:Hflag.
  - cbn. discriminate.
  - pose proof (request_fetch_shape (set_inProgress c true) "/api/chat"
                  (POST (chat_payload (set_inProgress c true) message now_sent))
                  (Some CHAT_TIMEOUT) net i url init a timeout) as Hshape.
    destruct (request (set_inProgress c true) "/api/chat"
                (POST (chat_payload (set_inProgress c true) message now_sent))
                (Some CHAT_TIMEOUT) net) as [tr r].
    destruct (chat_settle (set_inProgress c true) now_settled onStreamUpdate r) as [c2 out].
    cbn [fst snd] in *. intros Hlook.
    destruct (Hshape Hlook) as (-> & -> & -> & _). repeat split; reflexivity.
Qed.

Lemma chat_attempts_carry_the_session_witness :
  "http://localhost:8000/api/chat" = baseUrl client3 +:+ "/api/chat"
  /\ 90000 = CHAT_TIMEOUT
  /\ method (POST (chat_payload client3 "hi" "t0")) = Some "POST"
  /\ body (POST (chat_payload client3 "hi" "t0"))
       = Some (VObj [("message", VStr "hi"); ("session_id", VStr (sessionId client3));
                     ("timestamp", VStr "t0")])
  /\ isRequestInProgress client3 = false.
Proof.
  apply (chat_attempts_carry_the_session client3 "hi" None "t0" "t1" (always refused) 2
           "http://localhost:8000/api/chat" (POST (chat_payload client3 "hi" "t0")) 2 90000).
  reflexivity.
Defined.

(** The shape of what a chat call resolves to: it names the client's
    session and the time of settling; with [success] it holds a reply that
    is truthy (the [response] of the body, else its [message], else the
    text "No response") and no error, and the request had returned;
    without, it holds an error and no reply. *)
Theorem chat_result_shape (c : AetherClient) (message : string)
    (onStreamUpdate : option stream_callback) (now_sent now_settled : string)
    (net : nat -> fetch_outcome) (result : chat_result) :
  snd (sendChatMessage c message onStreamUpdate now_sent now_settled net) = Return result ->
  result_sessionId result = sessionId c
  /\ timestamp result = now_settled
  /\ ((success result = true /\ error result = None
       /\ (exists reply, response result = Some reply /\ truthy reply = true)
       /\ (exists data,
             snd (request (set_inProgress c true) "/api/chat"
                    (POST (chat_payload c message now_sent)) (Some CHAT_TIMEOUT) net)
               = Return data))
      \/ (success result = false /\ response result = None
          /\ exists reason, error result = Some reason)).
Proof.
  unfold sendChatMessage. destruct (isRequestInProgress c) eqn:Hflag; [discriminate|].
  change (chat_payload (set_inProgress c true) message now_sent)
    with (chat_payload c message now_sent).
  destruct (request (set_inProgress c true) "/api/chat"
              (POST (chat_payload c message now_sent)) (Some CHAT_TIMEOUT) net) as [tr r].
  unfold chat_settle. cbn [snd].
  destruct (chat_try (set_inProgress c true) now_settled onStreamUpdate r)
    as [res|t] eqn:Htry.
  - intros [= <-].
    unfold chat_try, mbind, completion_bind, mret, completion_ret in Htry.
    destruct r as [data|t0]; [|discriminate].
    repeat match type of Htry with
    | context [match ?x with _ => _ end] => destruct x eqn:?; try discriminate
    end.
    injection Htry as <-. cbn.
    split; [reflexivity|]. split; [reflexivity|]. left.
    split; [reflexivity|]. split; [reflexivity|]. split; [|eauto].
    eexists. split; [reflexivity|].
    match goal with
    | H : (if truthy ?v then _ else _) = Return _ |- _ =>
        destruct (truthy v) eqn:Htruthy; [injection H as <-; exact Htruthy|];
        destruct (get data "message") as [msg|tm]; [injection H as <-|discriminate]
    end.
    unfold or_else. destruct (truthy msg) eqn:Hmsg; [exact Hmsg|reflexivity].
  - unfold chat_catch, mbind, completion_bind, mret, completion_ret.
    destruct (thrown_message t) as [msg|t']; [|discriminate].
    intros [= <-]. cbn. split; [reflexivity|]. split; [reflexivity|]. right. eauto.
Qed.

Lemma chat_result_shape_witness :
  let result := chat_failure client3 "t1" "Connection failed: Failed to fetch" in
  result_sessionId result = sessionId client3
  /\ timestamp result = "t1"
  /\ ((success result = true /\ error result = None
       /\ (exists reply, response result = Some reply /\ truthy reply = true)
       /\ (exists data,
             snd (request (set_inProgress client3 true) "/api/chat"
                    (POST (chat_payload client3 "hi" "t0")) (Some CHAT_TIMEOUT)
                    (always refused))
               = Return data))
      \/ (success result = false /\ response result = None
          /\ exists reason, error result = Some reason)).
Proof.
  apply (chat_result_shape client3 "hi" None "t0" "t1" (always refused)
           (chat_failure client3 "t1" "Connection failed: Failed to fetch")).
  reflexivity.
Defined.

(** [testConnection] never throws and always names the session; it makes
    the attempts [getHealth] makes; and it reports [connected] exactly when
    the health check returned a body that is neither [null] nor
    [undefined], then with that body's [status] and [aether_version]. *)
Theorem testConnection_always_reports (c : AetherClient) (net : nat -> fetch_outcome) :
  fst (testConnection c net) = fst (getHealth c net)
  /\ exists report,
       snd (testConnection c net) = Return report
       /\ report_sessionId report = sessionId c
       /\ (connected report = true <->
           exists health, snd (getHealth c net) = Return health /\ nullish health = false)
       /\ (connected report = false <-> exists reason, report_error report = Some reason)
       /\ (forall health, snd (getHealth c net) = Return (VObj health) ->
             status report = Some (own_property "status" health)
             /\ version report = Some (own_property "aether_version" health)).
Proof.
  unfold testConnection.
  pose proof (request_throws_error c "/health" no_options None net) as Herr.
  unfold getHealth in *.
  destruct (request c "/health" no_options None net) as [tr r]. cbn [fst snd] in *.
  split; [reflexivity|].
  destruct r as [health|t].
  - destruct health; cbn; eexists; (split; [reflexivity|]); (split; [reflexivity|]); cbn;
      repeat split; intros;
      repeat match goal with
      | H : exists _, _ |- _ => destruct H
      | H : _ /\ _ |- _ => destruct H
      end;
      simplify_eq; try discriminate; try reflexivity; eauto.
  - destruct (Herr t eq_refl) as (msg & ->). cbn.
    eexists. split; [reflexivity|]. split; [reflexivity|]. cbn.
    repeat split; intros;
      repeat match goal with
      | H : exists _, _ |- _ => destruct H
      | H : _ /\ _ |- _ => destruct H
      end;
      simplify_eq; try discriminate; eauto.
Qed.

Lemma testConnection_always_reports_witness :
  exists report,
    snd (testConnection client3 (always healthy)) = Return report
    /\ connected report = true /\ status report = Some (VStr "ok").
Proof.
  destruct (testConnection_always_reports client3 (always healthy))
    as (_ & report & Hsnd & _ & Hconn & _ & Hfields).
  exists report. split; [exact Hsnd|]. split.
  - apply Hconn. exists ok_status. split; reflexivity.
  - apply (Hfields [("status", VStr "ok")]). reflexivity.
Defined.

End ClientMore.

(** ** More on the session identity *)

Section SessionMore.
Import Js Aether Observe Sample.

(** The session code touches one entry of [localStorage] and one field of
    the client: every other key keeps its value through
    [getOrCreateSessionId], [clearSession] and the constructor, and
    [clearSession] leaves the retry settings and the chat flag alone. *)
Theorem session_code_touches_one_key (en : entropy) (c : AetherClient)
    (ls : gmap string string) (key : string) :
  key <> SESSION_KEY ->
  snd (getOrCreateSessionId en ls) !! key = ls !! key
  /\ snd (constructor en ls) !! key = ls !! key
  /\ snd (clearSession en c ls) !! key = ls !! key
  /\ baseUrl (fst (clearSession en c ls)) = baseUrl c
  /\ retryCount (fst (clearSession en c ls)) = retryCount c
  /\ retryDelay (fst (clearSession en c ls)) = retryDelay c
  /\ isRequestInProgress (fst (clearSession en c ls)) = isRequestInProgress c.
Proof.
  intros Hkey.
  assert (Hget : snd (getOrCreateSessionId en ls) !! key = ls !! key).
  { unfold getOrCreateSessionId. destruct (falsy_item (ls !! SESSION_KEY)); cbn [snd].
    - rewrite lookup_insert_ne by congruence. reflexivity.
    - reflexivity. }
  split; [exact Hget|]. split.
  - unfold constructor. destruct (getOrCreateSessionId en ls) as [sid ls']. exact Hget.
  - rewrite clearSession_mints. cbn [fst snd]. split; [|repeat split].
    rewrite lookup_insert_ne by congruence. rewrite lookup_delete_ne by congruence.
    reflexivity.
Qed.

Lemma session_code_touches_one_key_witness :
  snd (clearSession reading_c client3 {[ "theme" := "dark" ]}) !! "theme" = Some "dark".
Proof.
  destruct (session_code_touches_one_key reading_c client3 {[ "theme" := "dark" ]} "theme")
    as (_ & _ & Hclear & _).
  - discriminate.
  - rewrite Hclear. reflexivity.
Defined.

(** The session survives a restart of the page: a client constructed on
    the storage an earlier client left is that earlier client as it was
    constructed, whatever the clock and the random source say now, and the
    storage stays as it is. *)
Theorem session_survives_restart (en1 en2 : entropy) (ls : gmap string string) :
  constructor en2 (snd (constructor en1 ls)) = constructor en1 ls
  /\ snd (constructor en1 ls) !! SESSION_KEY = Some (sessionId (fst (constructor en1 ls))).
Proof.
  unfold constructor.
  pose proof (getOrCreateSessionId_stored en1 ls) as Hst.
  destruct (getOrCreateSessionId en1 ls) as [sid ls1]. destruct Hst as [Hl Hf].
  cbn [fst snd sessionId].
  rewrite (getOrCreateSessionId_present en2 ls1 sid Hl Hf). auto.
Qed.

End SessionMore.

(** ** More on the event loop *)

Section EventLoopMore.
Import Js Aether Observe ObserveMore Sample.

Lemma settle_counts p k now r :
  inflight p = [k] \/ inflight p = [] ->
  length (settled (settle p k now r)) = S (length (settled p))
  /\ inflight (settle p k now r) = [].
Proof.
  intros Hin. unfold settle, chat_settle. cbn [settled inflight]. rewrite length_app.
  cbn [length].
  split; [lia|]. destruct Hin as [-> | ->]; [apply drop_call_singleton|reflexivity].
Qed.

Lemma enter_attempt_counts p k attempt :
  inflight p = [k] \/ inflight p = [] ->
  (length (settled (enter_attempt p k attempt))
   + length (inflight (enter_attempt p k attempt)) = S (length (settled p)))%nat.
Proof.
  intros Hin. unfold enter_attempt. destruct (Nat.leb attempt (retryCount (client p)));
    cbn [settled inflight];
    (destruct Hin as [-> | ->]; [rewrite drop_call_singleton|]); cbn; lia.
Qed.

Lemma step_counts p ev :
  single_flight p ->
  (length (settled (step p ev)) + length (inflight (step p ev))
   = length (settled p) + length (inflight p) + (if is_invoke ev then 1 else 0))%nat.
Proof.
  intros Hinv. unfold single_flight in Hinv.
  destruct (inflight p) as [|k0 [|k1 rest]] eqn:Hin; [| |contradiction].
  - destruct ev as [id message cb now|id o now|id now|id now]; cbn [step is_invoke].
    + rewrite Hinv.
      match goal with
      | |- context [enter_attempt ?q ?k 1] =>
          pose proof (enter_attempt_counts q k 1 (or_intror Hin)) as H
      end.
      cbn [settled] in H. cbn [length]. lia.
    + rewrite Hin. cbn. rewrite Hin. cbn. lia.
    + rewrite Hin. cbn. rewrite Hin. cbn. lia.
    + rewrite Hin. cbn. rewrite Hin. cbn. lia.
  - destruct ev as [id message cb now|id o now|id now|id now]; cbn [step is_invoke].
    + rewrite Hinv. cbn [settled inflight]. rewrite length_app, Hin. cbn. lia.
    + rewrite Hin. destruct (find_call id [k0]) as [k|] eqn:Hfind; [|rewrite Hin; cbn; lia].
      apply find_call_singleton in Hfind as [-> <-].
      destruct (call_phase k0) as [attempt|attempt|r];
        [|rewrite Hin; cbn; lia|rewrite Hin; cbn; lia].
      destruct (run_attempt (client p) attempt o) as [data|e|ms].
      * match goal with
        | |- context [settle p k0 now ?r] =>
            destruct (settle_counts p k0 now r (or_introl Hin)) as [-> ->]
        end. cbn. lia.
      * match goal with
        | |- context [settle p k0 now ?r] =>
            destruct (settle_counts p k0 now r (or_introl Hin)) as [-> ->]
        end. cbn. lia.
      * cbn [settled inflight]. rewrite drop_call_singleton. cbn. lia.
    + rewrite Hin. destruct (find_call id [k0]) as [k|] eqn:Hfind; [|rewrite Hin; cbn; lia].
      apply find_call_singleton in Hfind as [-> <-].
      destruct (call_phase k0) as [attempt|attempt|r];
        [rewrite Hin; cbn; lia| |rewrite Hin; cbn; lia].
      pose proof (enter_attempt_counts p k0 (S attempt) (or_introl Hin)) as H.
      cbn [length]. lia.
    + rewrite Hin. destruct (find_call id [k0]) as [k|] eqn:Hfind; [|rewrite Hin; cbn; lia].
      apply find_call_singleton in Hfind as [-> <-].
      destruct (call_phase k0) as [attempt|attempt|r];
        [rewrite Hin; cbn; lia|rewrite Hin; cbn; lia|].
      destruct (settle_counts p k0 now r (or_introl Hin)) as [-> ->]. cbn. lia.
Qed.

Lemma run_alone_is_sendChatMessage_witness :
  run (fresh_page client3)
      (Invoke 1 "hi" None "t0" ::
       drive (set_inProgress client3 true) 1 third_time_lucky "t1" (retryCount client3) 1)
    = {| client := client3; inflight := [];
         wire := map (pair 1%nat)
                   (snd (fst (sendChatMessage client3 "hi" None "t0" "t1" third_time_lucky)));
         settled := [(1%nat, snd (sendChatMessage client3 "hi" None "t0" "t1"
                                    third_time_lucky))] |}.
Proof.
  pose proof (run_alone_is_sendChatMessage client3 1 "hi" None "t0" "t1" third_time_lucky
                eq_refl) as H.
  destruct (sendChatMessage client3 "hi" None "t0" "t1" third_time_lucky)
    as [[c' tr] outcome] eqn:Hsend.
  rewrite H by (simpl; lia). cbn [fst snd]. f_equal.
  vm_compute in Hsend. injection Hsend as <- _ _. reflexivity.
Defined.

(** No chat call is lost and none settles twice: at every moment the
    promises that have settled and the call still outstanding account for
    exactly the calls made so far. *)
Theorem every_chat_call_is_accounted_for (c : AetherClient) (evs : list event) :
  let p := run (fresh_page c) evs in
  (length (settled p) + length (inflight p) = invocations evs)%nat.
Proof.
  cbv zeta. induction evs as [|ev evs IH] using rev_ind.
  - reflexivity.
  - rewrite run_snoc. rewrite step_counts by apply run_single_flight.
    rewrite IH. unfold invocations. rewrite List.filter_app, length_app. cbn.
    destruct (is_invoke ev); cbn; lia.
Qed.

End EventLoopMore.

(** ** More on the process session *)

Section ProcessSessionMore.
Import Terminal TerminalObserve TerminalObserveMore.

Lemma perform_keeps_handle t op h :
  ptyProcess t = Some h -> exists h', ptyProcess (fst (perform t op)) = Some h'.
Proof.
  intros Hp.
  assert (Hstart : forall hst spawned,
            exists h', ptyProcess (fst (startSession hst spawned t)) = Some h').
  { intros hst spawned. pose proof (startSession_state hst spawned t) as H. cbv zeta in H.
    destruct (isRunning t); [rewrite H; eauto|].
    destruct spawned as [reason|pty]; [rewrite H; eauto|]. destruct H as [_ ->]. eauto. }
  destruct op as [hst spawned|data|cols rows|hst spawned task context| | |data]; cbn [perform].
  - apply Hstart.
  - rewrite write_state. eauto.
  - rewrite resize_state. eauto.
  - destruct (startClaude_state hst spawned t task context) as [_ ->]. apply Hstart.
  - unfold kill. rewrite Hp. cbn. eauto.
  - unfold onExit. rewrite Hp. cbn. eauto.
  - unfold onData. rewrite Hp. cbn. eauto.
Qed.

Lemma perform_all_keeps_handle ops : forall t h,
  ptyProcess t = Some h -> exists h', ptyProcess (fst (perform_all t ops)) = Some h'.
Proof.
  induction ops as [|op ops IH]; intros t h Hp; [cbn; eauto|].
  cbn [perform_all]. destruct (perform_keeps_handle t op h Hp) as [h1 H1].
  destruct (perform t op) as [t1 e1]. cbn [fst] in H1.
  destruct (IH t1 h1 H1) as [h2 H2]. destruct (perform_all t1 ops) as [t2 e2]. eauto.
Qed.

(** Once an instance holds a process it holds one for good: no operation
    clears the handle, so [kill()] signals the held process every time it
    is called, also when the session has already stopped. *)
Theorem process_handle_is_never_dropped (t : ClaudeTerminal) (ops : list operation)
    (h : nat) :
  ptyProcess t = Some h ->
  exists h', ptyProcess (fst (perform_all t ops)) = Some h'
    /\ snd (kill (fst (perform_all t ops))) = [PtyKill h']
    /\ snd (kill (fst (kill (fst (perform_all t ops))))) = [PtyKill h'].
Proof.
  intros Hp. destruct (perform_all_keeps_handle ops t h Hp) as [h' Hh'].
  exists h'. split; [exact Hh'|]. unfold kill. rewrite Hh'. cbn. rewrite ?Hh'. auto.
Qed.

Lemma process_handle_is_never_dropped_witness :
  exists h', snd (kill (fst (perform_all
                              (fst (startSession linux (inr 4%nat) (constructor (Some "/work") "/home")))
                              [Kill; ProcessExited; Write "ls"]))) = [PtyKill h'].
Proof.
  destruct (process_handle_is_never_dropped
              (fst (startSession linux (inr 4%nat) (constructor (Some "/work") "/home")))
              [Kill; ProcessExited; Write "ls"] 4%nat) as (h' & _ & Hkill & _).
  - reflexivity.
  - exists h'. exact Hkill.
Defined.

Lemma perform_without_process t op :
  ptyProcess t = None -> isRunning t = false -> respawns op = false ->
  ptyProcess (fst (perform t op)) = None
  /\ isRunning (fst (perform t op)) = false
  /\ existsb touches_process (snd (perform t op)) = false.
Proof.
  intros Hp Hr Hop.
  destruct op as [hst spawned|data|cols rows|hst spawned task context| | |data];
    cbn [perform].
  - destruct spawned as [reason|pty]; [|discriminate].
    unfold startSession. rewrite Hr. cbn. auto.
  - unfold write. rewrite Hp. cbn. auto.
  - unfold resize. rewrite Hp. cbn. auto.
  - destruct spawned as [reason|pty]; [|discriminate].
    unfold startClaude, startSession. rewrite Hr. cbn. auto.
  - unfold kill. rewrite Hp. cbn. auto.
  - unfold onExit. rewrite Hp. cbn. auto.
  - unfold onData. rewrite Hp. cbn. auto.
Qed.

(** As long as no spawn has succeeded nothing reaches a process: whatever
    is called on the instance, failed starts included, there is no write,
    no resize and no kill, and the instance stays idle without a handle. *)
Theorem nothing_reaches_a_process_before_a_spawn (path : option string) (cwd : string)
    (ops : list operation) :
  Forall (fun op => respawns op = false) ops ->
  ptyProcess (fst (perform_all (constructor path cwd) ops)) = None
  /\ isRunning (fst (perform_all (constructor path cwd) ops)) = false
  /\ existsb touches_process (snd (perform_all (constructor path cwd) ops)) = false.
Proof.
  assert (Hgen : forall ops t, ptyProcess t = None -> isRunning t = false ->
            Forall (fun op => respawns op = false) ops ->
            ptyProcess (fst (perform_all t ops)) = None
            /\ isRunning (fst (perform_all t ops)) = false
            /\ existsb touches_process (snd (perform_all t ops)) = false).
  { clear. induction ops as [|op ops IH]; intros t Hp Hr Hall; [cbn; auto|].
    apply Forall_cons in Hall as [Hop Hall]. cbn [perform_all].
    destruct (perform_without_process t op Hp Hr Hop) as (Hp1 & Hr1 & He1).
    destruct (perform t op) as [t1 e1]. cbn [fst snd] in *.
    destruct (IH t1 Hp1 Hr1 Hall) as (Hp2 & Hr2 & He2).
    destruct (perform_all t1 ops) as [t2 e2]. cbn [fst snd] in *.
    rewrite existsb_app, He1, He2. auto. }
  intros Hall. apply Hgen; [reflexivity|reflexivity|exact Hall].
Qed.

Lemma nothing_reaches_a_process_before_a_spawn_witness :
  existsb touches_process
    (snd (perform_all (constructor (Some "/work") "/home")
            [Write "ls"; StartSession linux (inl "spawn ENOENT"); Kill;
             StartClaude linux (inl "spawn ENOENT") None (Some "urgent"); Resize 120 40]))
    = false.
Proof.
  apply (nothing_reaches_a_process_before_a_spawn (Some "/work") "/home"
           [Write "ls"; StartSession linux (inl "spawn ENOENT"); Kill;
            StartClaude linux (inl "spawn ENOENT") None (Some "urgent"); Resize 120 40]).
  repeat constructor.
Defined.

Lemma write_running t pty data :
  ptyProcess t = Some pty -> isRunning t = true -> write t data = (t, [PtyWrite pty data]).
Proof. intros Hp Hr. unfold write. rewrite Hp, Hr. reflexivity. Qed.

Lemma launchClaudeCode_running t pty task context :
  ptyProcess t = Some pty -> isRunning t = true ->
  launchClaudeCode t task context = (t, launch_writes pty (task, context)).
Proof.
  intros Hp Hr. unfold launchClaudeCode.
  rewrite !(write_running t pty) by assumption. reflexivity.
Qed.

Lemma run_listeners_writes pty ls : forall t,
  ptyProcess t = Some pty -> isRunning t = true ->
  run_listeners t ls = (t, flat_map (launch_writes pty) ls).
Proof.
  induction ls as [|[task context] ls IH]; intros t Hp Hr; [reflexivity|].
  cbn [run_listeners flat_map].
  rewrite (launchClaudeCode_running t pty) by assumption.
  rewrite (IH t Hp Hr). reflexivity.
Qed.

Lemma startSession_spawned h pty t :
  isRunning t = false ->
  startSession h (inr pty) t =
    ({| projectPath := projectPath t; ptyProcess := Some pty; isRunning := true;
        onceReady := [] |},
     PtySpawn (select_shell h) (projectPath t) :: Emit EvReady
       :: flat_map (launch_writes pty) (onceReady t)).
Proof.
  intros Hr. unfold startSession, emit_ready. rewrite Hr. cbn [onceReady projectPath
    ptyProcess isRunning].
  rewrite (run_listeners_writes pty) by reflexivity. reflexivity.
Qed.

(** A successful [startSession] on a session that is not running spawns
    the shell in the project directory, announces [ready], and then writes
    the banner and the command of every pending [startClaude], oldest first,
    to the new process; nothing is left pending. *)
Theorem startSession_delivers_pending_commands (h : host) (pty : nat) (t : ClaudeTerminal) :
  isRunning t = false ->
  snd (startSession h (inr pty) t) =
    PtySpawn (select_shell h) (projectPath t) :: Emit EvReady
      :: flat_map (launch_writes pty) (onceReady t)
  /\ onceReady (fst (startSession h (inr pty) t)) = []
  /\ ptyProcess (fst (startSession h (inr pty) t)) = Some pty
  /\ isRunning (fst (startSession h (inr pty) t)) = true
  /\ projectPath (fst (startSession h (inr pty) t)) = projectPath t.
Proof.
  intros Hr. rewrite startSession_spawned by exact Hr. cbn. auto.
Qed.

Lemma startSession_delivers_pending_commands_witness :
  snd (startSession linux (inr 9%nat)
         {| projectPath := "/work"; ptyProcess := Some 7%nat; isRunning := false;
            onceReady := [(Some fix_bug, None)] |}) =
    [PtySpawn "/bin/zsh" "/work"; Emit EvReady; PtyWrite 9 BANNER;
     PtyWrite 9 (claudeCommand (Some fix_bug) None +:+ newline)].
Proof.
  apply (startSession_delivers_pending_commands linux 9%nat
           {| projectPath := "/work"; ptyProcess := Some 7%nat; isRunning := false;
              onceReady := [(Some fix_bug, None)] |}).
  reflexivity.
Defined.

Lemma startClaude_idle h spawned t currentTask contextData :
  isRunning t = false ->
  startClaude h spawned t currentTask contextData =
    ({| projectPath := projectPath (fst (startSession h spawned t));
        ptyProcess := ptyProcess (fst (startSession h spawned t));
        isRunning := isRunning (fst (startSession h spawned t));
        onceReady := (onceReady (fst (startSession h spawned t))
                       ++ [(currentTask, contextData)])%list |},
     snd (startSession h spawned t)).
Proof.
  intros Hr. unfold startClaude. rewrite Hr. cbn [negb].
  destruct (startSession h spawned t) as [t1 e1]. reflexivity.
Qed.

(** [startClaude] on a session that is not running starts it and only
    then subscribes to [ready], which has been emitted by then: its own
    command is not written to the process it started. The subscription
    stays, also when the spawn failed, and the command goes to the next
    process the instance starts. *)
Theorem startClaude_misses_its_own_ready (h : host) (spawned : string + nat)
    (t : ClaudeTerminal) (currentTask : option Task) (contextData : option string) :
  isRunning t = false ->
  let t' := fst (startClaude h spawned t currentTask contextData) in
  snd (startClaude h spawned t currentTask contextData) = snd (startSession h spawned t)
  /\ onceReady t' = (onceReady (fst (startSession h spawned t))
                      ++ [(currentTask, contextData)])%list
  /\ (forall pty, spawned = inr pty ->
        onceReady t' = [(currentTask, contextData)] /\ isRunning t' = true)
  /\ (forall h2 pty2,
        snd (startSession h2 (inr pty2) (fst (onExit t'))) =
          PtySpawn (select_shell h2) (projectPath t) :: Emit EvReady
            :: (flat_map (launch_writes pty2) (onceReady (fst (startSession h spawned t)))
                ++ launch_writes pty2 (currentTask, contextData))%list).
Proof.
  intros Hr. cbv zeta.
  rewrite startClaude_idle by exact Hr. cbn [fst snd onceReady isRunning].
  split; [reflexivity|]. split; [reflexivity|]. split.
  - intros pty ->. rewrite startSession_spawned by exact Hr. cbn. auto.
  - intros h2 pty2.
    assert (Hpath : projectPath (fst (startSession h spawned t)) = projectPath t).
    { destruct spawned as [reason|pty].
      - unfold startSession. rewrite Hr. reflexivity.
      - rewrite startSession_spawned by exact Hr. reflexivity. }
    unfold onExit. cbn [ptyProcess projectPath isRunning onceReady].
    destruct (ptyProcess (fst (startSession h spawned t))) as [p|] eqn:Hp.
    + rewrite startSession_spawned by reflexivity.
      cbn [fst snd projectPath onceReady]. rewrite Hpath, flat_map_app. cbn [flat_map].
      rewrite app_nil_r. reflexivity.
    + rewrite startSession_spawned.
      * cbn [fst snd projectPath onceReady]. rewrite Hpath, flat_map_app. cbn [flat_map].
        rewrite app_nil_r. reflexivity.
      * cbn [isRunning]. destruct spawned as [reason|pty].
        -- unfold startSession. rewrite Hr. exact Hr.
        -- rewrite startSession_spawned in Hp by exact Hr. discriminate.
Qed.

Lemma startClaude_misses_its_own_ready_witness :
  snd (startClaude linux (inr 7%nat) (constructor (Some "/work") "/home") (Some fix_bug) None)
    = [PtySpawn "/bin/zsh" "/work"; Emit EvReady].
Proof.
  destruct (startClaude_misses_its_own_ready linux (inr 7%nat) (constructor (Some "/work") "/home")
              (Some fix_bug) None) as (Heff & _).
  - reflexivity.
  - rewrite Heff. reflexivity.
Defined.

(** On a running session [startClaude] spawns nothing and writes the
    banner and then the command line to the process the session holds. *)
Theorem startClaude_on_a_running_session (h : host) (spawned : string + nat)
    (t : ClaudeTerminal) (currentTask : option Task) (contextData : option string) :
  reachable t -> isRunning t = true ->
  exists pty, ptyProcess t = Some pty
    /\ startClaude h spawned t currentTask contextData =
         (t, [PtyWrite pty BANNER;
              PtyWrite pty (claudeCommand currentTask contextData +:+ newline)]).
Proof.
  intros Hreach Hr.
  destruct (reachable_running_has_process t Hreach Hr) as [pty Hp].
  exists pty. split; [exact Hp|].
  unfold startClaude. rewrite Hr. cbn [negb].
  apply launchClaudeCode_running; assumption.
Qed.

Lemma startClaude_on_a_running_session_witness :
  exists pty,
    snd (startClaude linux (inl "unused")
           (fst (perform_all (constructor (Some "/work") "/home") [StartSession linux (inr 3%nat)]))
           None (Some "urgent"))
      = [PtyWrite pty BANNER; PtyWrite pty (claudeCommand None (Some "urgent") +:+ newline)].
Proof.
  destruct (startClaude_on_a_running_session linux (inl "unused")
              (fst (perform_all (constructor (Some "/work") "/home") [StartSession linux (inr 3%nat)]))
              None (Some "urgent")) as (pty & _ & Heq).
  - exists (Some "/work"), "/home", [StartSession linux (inr 3%nat)]. reflexivity.
  - reflexivity.
  - exists pty. rewrite Heq. reflexivity.
Defined.

(** Nothing in the command line is escaped: a title that carries a quote
    can pass for a title and a priority, the two tasks giving the very
    same command whatever the context data. *)
Theorem title_can_forge_a_priority (ttl prio : string) (contextData : option string) :
  present (Some prio) = true ->
  claudeCommand
    (Some {| title := Some (ttl +:+ dquote +:+ " --context " +:+ dquote +:+ "Priority: "
                              +:+ prio);
             priority := None |}) contextData
  = claudeCommand (Some {| title := Some ttl; priority := Some prio |}) contextData.
Proof.
  intros Hprio. rewrite !claudeCommand_rule. unfold composition_rule, context_flag.
  cbn [title priority interpolate default]. rewrite Hprio.
  change (present None) with false. cbn iota. unfold id.
  rewrite ?string_app_assoc, ?string_app_empty. reflexivity.
Qed.

Lemma title_can_forge_a_priority_witness :
  claudeCommand
    (Some {| title := Some ("Fix bug" +:+ dquote +:+ " --context " +:+ dquote +:+ "Priority: "
                              +:+ "high");
             priority := None |}) (Some "urgent")
  = claudeCommand (Some fix_bug) (Some "urgent").
Proof.
  apply (title_can_forge_a_priority "Fix bug" "high" (Some "urgent")). reflexivity.
Defined.

Lemma shown_app (a b : list effect) :
  shown (Main.to_renderer (a ++ b)) = (shown (Main.to_renderer a) ++ shown (Main.to_renderer b))%list.
Proof. unfold shown, Main.to_renderer. rewrite !omap_app. reflexivity. Qed.

Lemma shown_launch_writes pty ls : shown (Main.to_renderer (flat_map (launch_writes pty) ls)) = [].
Proof. induction ls as [|l ls IH]; [reflexivity|]. cbn [flat_map]. rewrite shown_app, IH. reflexivity. Qed.

Lemma perform_shown t op h :
  ptyProcess t = Some h ->
  shown (Main.to_renderer (snd (perform t op))) = produced [op].
Proof.
  intros Hp.
  assert (Hstart : forall hst spawned,
            shown (Main.to_renderer (snd (startSession hst spawned t))) = []).
  { intros hst spawned. destruct (isRunning t) eqn:Hr.
    - unfold startSession. rewrite Hr. reflexivity.
    - destruct spawned as [reason|pty].
      + unfold startSession. rewrite Hr. reflexivity.
      + rewrite startSession_spawned by exact Hr. cbn [snd].
        change (PtySpawn ?a ?b :: Emit EvReady :: ?l) with ([PtySpawn a b; Emit EvReady] ++ l)%list.
        rewrite shown_app, shown_launch_writes. reflexivity. }
  destruct op as [hst spawned|data|cols rows|hst spawned task context| | |data]; cbn [perform].
  - apply Hstart.
  - unfold write. rewrite Hp. destruct (isRunning t); reflexivity.
  - unfold resize. rewrite Hp. destruct (isRunning t); reflexivity.
  - destruct (isRunning t) eqn:Hr.
    + unfold startClaude. rewrite Hr. cbn [negb].
      rewrite (launchClaudeCode_running t h) by assumption. reflexivity.
    + rewrite startClaude_idle by exact Hr. apply Hstart.
  - unfold kill. rewrite Hp. reflexivity.
  - unfold onExit. rewrite Hp. reflexivity.
  - unfold onData. rewrite Hp. reflexivity.
Qed.

(** What the renderer is shown is what the process put out: once the
    instance holds a process, the [terminal-output] messages of any run
    carry exactly the chunks the process produced, each once and in order,
    whether or not the session still counts as running and whatever else
    is called in between. *)
Theorem renderer_sees_the_output_in_order (t : ClaudeTerminal) (ops : list operation)
    (h : nat) :
  ptyProcess t = Some h ->
  shown (Main.to_renderer (snd (perform_all t ops))) = produced ops.
Proof.
  revert t h. induction ops as [|op ops IH]; intros t h Hp; [reflexivity|].
  cbn [perform_all].
  pose proof (perform_shown t op h Hp) as Hop.
  destruct (perform_keeps_handle t op h Hp) as [h1 H1].
  destruct (perform t op) as [t1 e1]. cbn [fst snd] in *.
  specialize (IH t1 h1 H1). destruct (perform_all t1 ops) as [t2 e2]. cbn [snd] in *.
  rewrite shown_app, Hop, IH. unfold produced. cbn [omap].
  destruct op; reflexivity.
Qed.

Lemma renderer_sees_the_output_in_order_witness :
  shown (Main.to_renderer
           (snd (perform_all (fst (startSession linux (inr 4%nat) (constructor (Some "/work") "/home")))
                   [ProcessOutput "$ "; Write "ls"; ProcessOutput "src"; Kill;
                    ProcessOutput "bye"; ProcessExited])))
    = ["$ "; "src"; "bye"].
Proof.
  apply (renderer_sees_the_output_in_order
           (fst (startSession linux (inr 4%nat) (constructor (Some "/work") "/home")))
           [ProcessOutput "$ "; Write "ls"; ProcessOutput "src"; Kill;
            ProcessOutput "bye"; ProcessExited] 4%nat).
  reflexivity.
Defined.

(** The reply of an IPC handler says nothing about the outcome: every
    request is answered with success, also input and resizes that were
    dropped because the session is not running, and a start whose spawn
    failed and left the session idle. *)
Theorem ipc_reply_ignores_the_outcome (h : host) (spawned : string + nat)
    (t : ClaudeTerminal) (req : Main.ipc_request) :
  snd (Main.handle h spawned t req) = true
  /\ (isRunning t = false ->
      (forall data, Main.handle h spawned t (Main.TerminalInput data) = (t, [], true))
      /\ (forall cols rows,
            Main.handle h spawned t (Main.TerminalResize cols rows) = (t, [], true))
      /\ (forall reason,
            Main.handle h (inl reason) t Main.TerminalStart =
              (t, [PtySpawn (select_shell h) (projectPath t); Emit (EvError reason)], true)
            /\ Main.to_renderer (snd (fst (Main.handle h (inl reason) t Main.TerminalStart)))
                = [{| Main.channel := "terminal-error"; Main.payload := Some reason |}])).
Proof.
  split; [destruct req; reflexivity|].
  intros Hr. split; [|split].
  - intros data. unfold Main.handle, write. rewrite Hr. destruct (ptyProcess t); reflexivity.
  - intros cols rows. unfold Main.handle, resize. rewrite Hr.
    destruct (ptyProcess t); reflexivity.
  - intros reason. unfold Main.handle, startSession. rewrite Hr. split; reflexivity.
Qed.

Lemma ipc_reply_ignores_the_outcome_witness :
  Main.handle linux (inr 1%nat) (constructor (Some "/work") "/home") (Main.TerminalInput "ls")
    = (constructor (Some "/work") "/home", [], true).
Proof.
  destruct (ipc_reply_ignores_the_outcome linux (inr 1%nat) (constructor (Some "/work") "/home")
              Main.TerminalStart) as [_ H].
  destruct (H eq_refl) as [Hinput _]. apply Hinput.
Defined.

End ProcessSessionMore.

(** ** The launch script *)

Section LaunchScript.
Import Launch.

Example launch_laptop :
  launch laptop =
    ([Cd AETHER_PATH; StartAether; Sleep 3; Curl; Sleep 1; Curl; Sleep 1; Curl; Curl;
      Cd MOTION_PATH; NpmInstall; NpmRunDev; Sleep 2], Monitoring).
Proof. reflexivity. Qed.

Lemma wait_for_health_step probe rounds i :
  wait_for_health probe (S rounds) i =
    if probe i then ([Curl], true)
    else if Nat.eqb i 10 then ([Curl], false)
    else
      let '(rest, ok) := wait_for_health probe rounds (S i) in
      (Curl :: Sleep 1 :: rest, ok).
Proof. reflexivity. Qed.

(** The waiting loop from round [i] on, when [rounds] rounds are left of
    the ten. *)
Lemma wait_for_health_spec probe rounds : forall i,
  (i + rounds = 11)%nat -> (1 <= rounds)%nat ->
  let '(acts, ok) := wait_for_health probe rounds i in
  exists n, (1 <= n <= rounds)%nat
    /\ length (List.filter is_curl acts) = n
    /\ List.filter is_sleep acts = repeat (Sleep 1) (n - 1)
    /\ (forall j, (i <= j < i + n - 1)%nat -> probe j = false)
    /\ (if ok then probe (i + n - 1)%nat = true
        else n = rounds /\ probe 10%nat = false).
Proof.
  induction rounds as [|rounds IH]; intros i Hsum Hpos; [lia|].
  rewrite wait_for_health_step.
  destruct (probe i) eqn:Hi.
  - exists 1%nat. split; [lia|]. split; [reflexivity|]. split; [reflexivity|].
    split; [intros j Hj; lia|].
    replace (i + 1 - 1)%nat with i by lia. exact Hi.
  - destruct (Nat.eqb i 10) eqn:H10.
    + apply Nat.eqb_eq in H10. subst i. exists 1%nat.
      split; [lia|]. split; [reflexivity|]. split; [reflexivity|].
      split; [intros j Hj; lia|]. split; [lia|exact Hi].
    + apply Nat.eqb_neq in H10.
      specialize (IH (S i) ltac:(lia) ltac:(lia)).
      destruct (wait_for_health probe rounds (S i)) as [rest ok].
      destruct IH as (n & Hn & Hcurl & Hsleep & Hfail & Hend).
      exists (S n). split; [lia|].
      split; [cbn [List.filter is_curl is_sleep length]; rewrite Hcurl; reflexivity|].
      split; [cbn [List.filter is_curl is_sleep]; rewrite Hsleep;
              replace (S n - 1)%nat with (S (n - 1)) by lia; reflexivity|].
      split.
      * intros j Hj. destruct (Nat.eq_dec j i) as [->|Hne]; [exact Hi|].
        apply Hfail. lia.
      * destruct ok.
        -- replace (i + S n - 1)%nat with (S i + n - 1)%nat by lia. exact Hend.
        -- destruct Hend as [-> Hten]. auto.
Qed.

(** The script waits for the backend at most ten probes long, a second
    after each failed probe but the tenth; it goes on at the first probe
    that is answered and gives up exactly when all ten fail. *)
Theorem waiting_for_the_backend (probe : nat -> bool) :
  let '(acts, ok) := wait_for_health probe 10 1 in
  exists n, (1 <= n <= 10)%nat
    /\ length (List.filter is_curl acts) = n
    /\ List.filter is_sleep acts = repeat (Sleep 1) (n - 1)
    /\ (forall j, (1 <= j < n)%nat -> probe j = false)
    /\ (ok = true <-> probe n = true)
    /\ (ok = false <-> forall j, (1 <= j <= 10)%nat -> probe j = false).
Proof.
  pose proof (wait_for_health_spec probe 10 1 ltac:(lia) ltac:(lia)) as H.
  destruct (wait_for_health probe 10 1) as [acts ok].
  destruct H as (n & Hn & Hcurl & Hsleep & Hfail & Hend).
  exists n. split; [exact Hn|]. split; [exact Hcurl|]. split; [exact Hsleep|].
  split; [intros j Hj; apply Hfail; lia|].
  replace (1 + n - 1)%nat with n in Hend by lia.
  destruct ok.
  - split; [split; auto|]. split; [discriminate|].
    intros Hall. rewrite Hall in Hend by lia. discriminate.
  - destruct Hend as [-> Hten]. split.
    + split; [discriminate|]. intros H. rewrite H in Hten. discriminate.
    + split; [|reflexivity]. intros _ j Hj.
      destruct (Nat.eq_dec j 10%nat) as [->|Hne]; [exact Hten|]. apply Hfail. lia.
Qed.

Lemma waiting_for_the_backend_witness :
  exists n, (1 <= n <= 10)%nat
    /\ length (List.filter is_curl (fst (wait_for_health (health laptop) 10 1))) = n
    /\ health laptop n = true.
Proof.
  pose proof (waiting_for_the_backend (health laptop)) as H.
  destruct (wait_for_health (health laptop) 10 1) as [acts ok] eqn:Hrun.
  destruct H as (n & Hn & Hcurl & _ & _ & Hok & _).
  exists n. split; [exact Hn|]. split; [exact Hcurl|].
  apply Hok. vm_compute in Hrun. injection Hrun as _ <-. reflexivity.
Defined.

(** The backend found dead by the monitoring loop: the script shuts the
    rest down and, here too, exits with status 0. *)
Example monitor_finds_backend_dead :
  monitor_round laptop false =
    ([KillPid 4242; Pkill "python.*aether"; Pkill "electron"], Some (Exit 0)).
Proof. reflexivity. Qed.

Lemma wait_for_health_ok (m : machine) :
  snd (wait_for_health (health m) 10 1) = true <->
  exists i, (1 <= i <= 10)%nat /\ health m i = true.
Proof.
  pose proof (waiting_for_the_backend_core := wait_for_health_spec (health m) 10 1
                                                ltac:(lia) ltac:(lia)).
  destruct (wait_for_health (health m) 10 1) as [acts ok]. cbn [snd].
  destruct waiting_for_the_backend_core as (n & Hn & _ & _ & Hfail & Hend).
  replace (1 + n - 1)%nat with n in Hend by lia.
  destruct ok.
  - split; [intros _; exists n; split; [lia|exact Hend]|reflexivity].
  - destruct Hend as [-> Hten]. split; [discriminate|].
    intros (i & Hi & Hok). exfalso.
    destruct (Nat.eq_dec i 10%nat) as [->|Hne]; [congruence|].
    rewrite Hfail in Hok by lia. discriminate.
Qed.

(** The script exits with status 1 only before it has started the
    backend, when a directory or the configuration file is missing. Every
    exit after that, the failed start-up and the missing [package.json]
    included, goes through [cleanup], which stops the backend and the
    dashboard and exits with status 0. *)
Theorem launch_exit_status (m : machine) (acts : list action) (code : Z) :
  launch m = (acts, Exit code) ->
  (code = 1 /\ ~ In StartAether acts
   /\ (aether_dir m = false \/ motion_dir m = false \/ config_yaml m = false))
  \/ (code = 0 /\ In StartAether acts
      /\ (snd (wait_for_health (health m) 10 1) = false \/ package_json m = false)
      /\ exists before,
           acts = (before ++ [KillPid (aether_pid m); Pkill "python.*aether";
                              Pkill "electron"])%list).
Proof.
  unfold launch.
  destruct (aether_dir m); cbn [negb].
  2:{ intros [= <- <-]. left. split; [reflexivity|]. split; [intros []|auto]. }
  destruct (motion_dir m); cbn [negb].
  2:{ intros [= <- <-]. left. split; [reflexivity|]. split; [intros []|auto]. }
  destruct (config_yaml m); cbn [negb].
  2:{ intros [= <- <-]. left. split; [reflexivity|]. split; [|auto].
      destruct (port_in_use m); cbn; intuition discriminate. }
  destruct (wait_for_health (health m) 10 1) as [probes ok]. cbn [snd].
  destruct ok; cbn [negb cleanup].
  - destruct (package_json m); cbn [negb]; [discriminate|].
    intros [= <- <-]. right. split; [reflexivity|]. split.
    + apply in_app_iff. left. apply in_app_iff. left. apply in_app_iff. right.
      cbn. auto.
    + split; [auto|]. eexists. cbn [app]. reflexivity.
  - intros [= <- <-]. right. split; [reflexivity|]. split.
    + apply in_app_iff. left. apply in_app_iff. right. cbn. auto.
    + split; [auto|]. eexists. rewrite app_assoc. cbn [app]. reflexivity.
Qed.

Lemma launch_exit_status_witness :
  exists before,
    fst (launch (MkMachine true true true true 4242 (fun _ => false) true true))
      = (before ++ [KillPid 4242; Pkill "python.*aether"; Pkill "electron"])%list.
Proof.
  destruct (launch_exit_status (MkMachine true true true true 4242 (fun _ => false) true true)
              (fst (launch (MkMachine true true true true 4242 (fun _ => false) true true)))
              0) as [(Hone & _)|(_ & _ & _ & Hend)].
  - reflexivity.
  - discriminate.
  - exact Hend.
Defined.

(** The script gets to its monitoring loop exactly when both directories,
    the configuration file and [package.json] are there and the backend
    answers one of the ten probes; it has then started the backend and the
    dashboard, and run [npm install] exactly when [node_modules] was
    missing. *)
Theorem launch_reaches_monitoring (m : machine) :
  (snd (launch m) = Monitoring <-> fit m)
  /\ (snd (launch m) = Monitoring ->
      In StartAether (fst (launch m)) /\ In NpmRunDev (fst (launch m))
      /\ (In NpmInstall (fst (launch m)) <-> node_modules m = false)
      /\ ~ In (KillPid (aether_pid m)) (fst (launch m))).
Proof.
  pose proof (wait_for_health_ok m) as Hok.
  assert (Hprobes : forall a, In a (fst (wait_for_health (health m) 10 1)) ->
                      a = Curl \/ a = Sleep 1).
  { assert (Hgen : forall rounds i a, In a (fst (wait_for_health (health m) rounds i)) ->
                     a = Curl \/ a = Sleep 1).
    { induction rounds as [|rounds IH]; intros i a; [intros []|].
      rewrite wait_for_health_step. destruct (health m i); [cbn; intuition auto|].
      destruct (Nat.eqb i 10); [cbn; intuition auto|].
      specialize (IH (S i) a). destruct (wait_for_health (health m) rounds (S i)).
      cbn in *. intuition auto. }
    apply Hgen. }
  unfold fit, launch.
  destruct (aether_dir m); cbn [negb].
  2:{ split; [split; [discriminate|intros (H & _); discriminate]|discriminate]. }
  destruct (motion_dir m); cbn [negb].
  2:{ split; [split; [discriminate|intros (_ & H & _); discriminate]|discriminate]. }
  destruct (config_yaml m); cbn [negb].
  2:{ split; [split; [discriminate|intros (_ & _ & H & _); discriminate]|discriminate]. }
  destruct (wait_for_health (health m) 10 1) as [probes ok]. cbn [fst snd] in *.
  destruct ok; cbn [negb cleanup].
  2:{ split; [split; [discriminate|]|discriminate].
      intros (_ & _ & _ & _ & Hex). apply Hok in Hex. discriminate. }
  destruct (package_json m); cbn [negb].
  2:{ split; [split; [discriminate|intros (_ & _ & _ & H & _); discriminate]|discriminate]. }
  cbn [fst snd]. split.
  - split; [|reflexivity]. intros _. repeat split; try reflexivity. apply Hok. reflexivity.
  - intros _. rewrite !in_app_iff. split; [|split; [|split]].
    + left. left. right. cbn. auto.
    + right. right. cbn. auto.
    + split.
      * intros H.
        repeat match type of H with _ \/ _ => destruct H as [H|H] end;
          try (destruct (Hprobes _ H); discriminate);
          destruct (port_in_use m), (node_modules m); cbn in H;
          intuition (try discriminate).
      * intros ->. right. left. cbn. auto.
    + intros H.
      repeat match type of H with _ \/ _ => destruct H as [H|H] end;
        try (destruct (Hprobes _ H); discriminate);
        destruct (port_in_use m), (node_modules m); cbn in H;
        intuition (try discriminate).
Qed.

Lemma launch_reaches_monitoring_witness :
  In NpmInstall (fst (launch laptop)) /\ snd (launch laptop) = Monitoring.
Proof.
  destruct (launch_reaches_monitoring laptop) as [Hiff Hthen].
  assert (Hmon : snd (launch laptop) = Monitoring).
  { apply Hiff. unfold fit. repeat split; try reflexivity.
    exists 3%nat. split; [lia|reflexivity]. }
  destruct (Hthen Hmon) as (_ & _ & Hnpm & _).
  split; [apply Hnpm; reflexivity|exact Hmon].
Defined.

End LaunchScript.
